(** * grpc-ts: the gRPC-Web client of [src/http/http.ts]

    A shallow embedding of [grpcCancel], of [grpcHTTP] and of the call
    function it returns: the cancellation registry of a client, the listeners
    of the four terminal transport events, the promise they resolve and the
    [then]/[catch] chain the caller receives.

    Conventions.
    - A JavaScript [number] is an IEEE 754 binary64 value: the kernel's
      [float].  Integers that the platform defines as such ([xhr.status],
      [xhr.timeout]) are in [Z].
    - A possibly [undefined]/[null] value is an [option].
    - [cancels : Record<string, () => void>] is a finite map on strings: the
      map holds the entries the object owns.  Reading [cancels[key]] is
      reading the map when [key] is an [ordinary_key]; under another key a
      plain object also answers with what it inherits, and the statements
      about what a key reads as are made for ordinary keys.
    - Values the client only passes along (decoded messages, thrown values,
      parsed JSON, decoded text, codecs) live in one abstract type [Any].
    - The transport is the environment: it raises the terminal events, and a
      call of [xhr.abort()] is a request made to it.
    - The devtool reporter [send] and the [logger] are write-only sinks; the
      embedding takes them to return normally and does not record what they
      are given. *)

From Stdlib Require Import ZArith List String Ascii Uint63 PrimFloat.
From stdpp Require Import gmap strings list fin_maps.

Open Scope Z_scope.

(** ** JavaScript values and built-ins *)

Abbreviation number := float.

(** [v ?? d] *)
Definition nullish {A} (v : option A) (d : A) : A :=
  match v with Some a => a | None => d end.

(** [isPresent] of [@whisklabs/typeguards] on a nullable value. *)
Definition isPresent {A} (v : option A) : bool :=
  match v with Some _ => true | None => false end.

(** [x >= 0] on numbers: false on [NaN], true on both zeros. *)
Definition ge0 (x : number) : bool := PrimFloat.leb 0%float x.

(** ** Status codes *)

(** Modelled from the spec: [src/http/status.ts] is not among the sources.
    [StatusCode] is the enumeration of gRPC status codes with the canonical
    numbering, of which the specification fixes [OK = 0] and
    [NOT_FOUND = 5]. *)
Inductive StatusCode :=
  | OK | CANCELLED | UNKNOWN | INVALID_ARGUMENT | DEADLINE_EXCEEDED
  | NOT_FOUND | ALREADY_EXISTS | PERMISSION_DENIED | RESOURCE_EXHAUSTED
  | FAILED_PRECONDITION | ABORTED | OUT_OF_RANGE | UNIMPLEMENTED
  | INTERNAL | UNAVAILABLE | DATA_LOSS | UNAUTHENTICATED.

Definition code (s : StatusCode) : number :=
  match s with
  | OK => 0 | CANCELLED => 1 | UNKNOWN => 2 | INVALID_ARGUMENT => 3
  | DEADLINE_EXCEEDED => 4 | NOT_FOUND => 5 | ALREADY_EXISTS => 6
  | PERMISSION_DENIED => 7 | RESOURCE_EXHAUSTED => 8
  | FAILED_PRECONDITION => 9 | ABORTED => 10 | OUT_OF_RANGE => 11
  | UNIMPLEMENTED => 12 | INTERNAL => 13 | UNAVAILABLE => 14
  | DATA_LOSS => 15 | UNAUTHENTICATED => 16
  end%float.

(** Modelled from the spec: the table of [fromHttpStatus] in
    [src/http/status.ts], which is not among the sources, as section 4.3 of
    the specification lists it (409 is read as a conflict that aborts; every
    status outside the table is [UNKNOWN]). *)
Definition fromHttpStatus_table (httpStatus : Z) : number :=
  code (match httpStatus with
        | 400 => INVALID_ARGUMENT
        | 401 => UNAUTHENTICATED
        | 403 => PERMISSION_DENIED
        | 404 => NOT_FOUND
        | 409 => ABORTED
        | 412 => FAILED_PRECONDITION
        | 429 => RESOURCE_EXHAUSTED
        | 499 => CANCELLED
        | 500 => UNKNOWN
        | 501 => UNIMPLEMENTED
        | 503 => UNAVAILABLE
        | 504 => DEADLINE_EXCEEDED
        | _ => UNKNOWN
        end).

(** ** The transport as the listeners see it *)

Record XHR := {
  status : Z;                                   (* xhr.status *)
  timeout : Z;                                  (* xhr.timeout *)
  response : option (list Byte.byte);           (* xhr.response *)
  getResponseHeader : string -> option string;  (* null when absent *)
}.

Definition GRPC_MESSAGE : string := "grpc-message".
Definition GRPC_STATUS : string := "grpc-status".

(** Modelled from the spec: [Chunk] and [ChunkType] of [src/http/parser.ts],
    which is not among the sources.  A frame is a message with its payload or
    a block of trailers; there is no third kind. *)
Inductive Chunk :=
  | MESSAGE (data : list Byte.byte)
  | TRAILERS (trailers : gmap string string).

(** ** Outcomes *)

Section Client.

Context {Any : Type}.

(** What a call that may throw completes with. *)
Inductive Completion (A : Type) :=
  | Return (a : A)
  | Throw (e : Any).
Arguments Return {A} a.
Arguments Throw {A} e.

(** The [data] of an error is [any]; the timeout listener stores a number
    there. *)
Inductive Data :=
  | Millis (ms : Z)
  | Value (a : Any).

Record ErrorInfo := {
  message : option string;
  data : option Data;
  httpStatus : option Z;
  grpcCode : option number;
}.

(** [GOutput<T> = { success: true, data } | { success: false, error }] *)
Inductive GOutput :=
  | GSuccess (data : Any)
  | GError (error : ErrorInfo).

Record Field := {
  name : string;
  encode : Any;
  decode : Any;
}.

(** The helpers the file imports from modules that are not among the
    sources, and the built-in [Number]. *)
Class Imports := {
  Number : string -> number;
  fromHttpStatus : Z -> number;
  toInt8 : XHR -> option (list Byte.byte);
  bufToString : XHR -> Any;
  chunkParse : list Byte.byte -> Completion (list Chunk);
  safeJSON : string -> Any;
  Decode : Any -> list Byte.byte -> Completion Any;
}.

Context {imports : Imports}.

(** ** The listeners: what each hands to [callback] *)

(** [xhr.addEventListener('timeout', ...)] *)
Definition timeout_outcome (xhr : XHR) : GOutput :=
  GError {| message := Some "timeout"; data := Some (Millis (timeout xhr));
            httpStatus := None; grpcCode := None |}.

(** [xhr.addEventListener('abort', ...)] *)
Definition abort_outcome (xhr : XHR) : GOutput :=
  GError {| message := Some "cancelled"; data := None;
            httpStatus := Some (status xhr);
            grpcCode := Some (code CANCELLED) |}.

(** [xhr.addEventListener('error', ...)] *)
Definition error_outcome (xhr : XHR) : GOutput :=
  GError {| message := Some "XHR error";
            data := Some (Value (bufToString xhr));
            httpStatus := Some (status xhr);
            grpcCode := Some (fromHttpStatus (status xhr)) |}.

(** The branch [data.length === 0] of [onready]: status and message are read
    from the response headers. *)
Definition header_outcome (xhr : XHR) : GOutput :=
  let status_ := getResponseHeader xhr GRPC_STATUS in
  let message_ :=
    if isPresent status_
    then nullish (getResponseHeader xhr GRPC_MESSAGE) ""
    else "Failed to parse GRPC status" in
  let grpcCode_ :=
    match status_ with
    | Some s => Some (nullish (Some (Number s)) 0%float)
    | None => None
    end in
  GError {| message := Some message_;
            data := Some (Value (safeJSON message_));
            httpStatus := Some (status xhr);
            grpcCode := grpcCode_ |}.

(** The branch [d.chunkType === ChunkType.MESSAGE]: [Decode] runs in a [try]
    whose [catch] reports whatever was thrown as a decode error.  (With
    [debug] the block first reports to the sinks.) *)
Definition message_outcome (field : Field) (xhr : XHR) (d : list Byte.byte)
  : GOutput :=
  match Decode (decode field) d with
  | Return v => GSuccess v
  | Throw e =>
      GError {| message := Some "Decode error"; data := Some (Value e);
                httpStatus := Some (status xhr); grpcCode := None |}
  end.

(** The branch [d.chunkType === ChunkType.TRAILERS]. *)
Definition trailers_code (xhr : XHR) (trailers : gmap string string)
  : number :=
  let status_ := trailers !! GRPC_STATUS in
  match status_ with
  | Some s =>
      let code_ := Number s in
      if ge0 code_ then code_ else fromHttpStatus (status xhr)
  | None => code OK
  end.

Definition trailers_outcome (xhr : XHR) (trailers : gmap string string)
  : GOutput :=
  let message_ := nullish (trailers !! GRPC_MESSAGE) "" in
  GError {| message := Some message_;
            data := Some (Value (safeJSON message_));
            httpStatus := Some (status xhr);
            grpcCode := Some (trailers_code xhr trailers) |}.

(** [for (const d of data)]: every iteration returns, so the loop decides on
    the first frame; on no frame at all it ends without calling [callback]. *)
Definition scan (field : Field) (xhr : XHR) (data : list Chunk)
  : option GOutput :=
  match data with
  | [] => None
  | MESSAGE d :: _ => Some (message_outcome field xhr d)
  | TRAILERS trailers :: _ => Some (trailers_outcome xhr trailers)
  end.

(** [xhr.addEventListener('load', function onready() ...)], after
    [tmCancel()]: the value given to [callback], if any. *)
Definition onready (field : Field) (xhr : XHR) : option GOutput :=
  if (status xhr <? 200) || (status xhr >=? 300) then
    Some (GError {| message := Some "XHR wrong status";
                    data := Some (Value (bufToString xhr));
                    httpStatus := Some (status xhr);
                    grpcCode := Some (fromHttpStatus (status xhr)) |})
  else
    match toInt8 xhr with
    | None =>
        Some (GError {| message := Some "GRPC no bytes"; data := None;
                        httpStatus := None; grpcCode := None |})
    | Some byteSource =>
        match chunkParse byteSource with
        | Throw error =>
            Some (GError {| message := Some "GRPC parsing error";
                            data := Some (Value error);
                            httpStatus := None; grpcCode := None |})
        | Return data =>
            if (length data =? 0)%nat then Some (header_outcome xhr)
            else scan field xhr data
        end
    end.

(** ** Promises *)

Inductive Promise (A : Type) :=
  | Pending
  | Fulfilled (v : A)
  | Rejected (reason : Any).
Arguments Pending {A}.
Arguments Fulfilled {A} v.
Arguments Rejected {A} reason.

(** The resolving function an executor receives, here always called with a
    plain object: it settles a pending promise and does nothing on a settled
    one. *)
Definition resolve {A} (v : A) (p : Promise A) : Promise A :=
  match p with
  | Pending => Fulfilled v
  | _ => p
  end.

(** [p.then(f)] and [p.catch(h)], as the state the derived promise reaches
    from the state [p] reaches.  A handler is given by what its result comes
    to: [Fulfilled v] when it returns [v] or a promise fulfilled with [v],
    [Rejected e] when it throws [e] or returns a promise rejected with [e]. *)
Definition then_ {A B} (p : Promise A) (f : A -> Promise B) : Promise B :=
  match p with
  | Pending => Pending
  | Fulfilled v => f v
  | Rejected e => Rejected e
  end.

Definition catch_ {A} (p : Promise A) (h : Any -> Promise A) : Promise A :=
  match p with
  | Rejected e => h e
  | _ => p
  end.

(** The part of [ConfigGRPC] that bears on the registry and on the response
    path.  [transformResponse] is given for one call, its [xhr] and [meta]
    arguments fixed. *)
Record ConfigGRPC := {
  server : string;
  transformResponse : option (GOutput -> Promise GOutput);
}.

(** [new Promise(...).then(...).then(...).catch(...)]: the promise the caller
    receives, from the promise the listeners resolve.  The first [then]
    reports to the sinks and returns its argument. *)
Definition returned (cfg : ConfigGRPC) (p : Promise GOutput)
  : Promise GOutput :=
  catch_
    (then_
       (then_ p (fun data_ => Fulfilled data_))
       (fun data_ =>
          match transformResponse cfg with
          | Some f => f data_
          | None => Fulfilled data_
          end))
    (fun data_ =>
       Fulfilled (GError {| message := None; data := Some (Value data_);
                            httpStatus := None; grpcCode := None |})).

(** ** The state of a process *)

(** [abortXHR = () => xhr.abort()], by the call whose [xhr] it closes over. *)
Inductive AbortFn := abortXHR (xhr : nat).

(** [cancel]: a key of the registry, or a handle made by [grpcCancel]. *)
Inductive Cancel :=
  | CancelKey (key : string)
  | CancelHandle (handle : nat).

Record Call := {
  call_client : nat;                  (* the client the call was made on *)
  call_field : Field;
  call_cancel : option Cancel;
  call_promise : Promise GOutput;
}.

(** What the clients do to the transport, to their registries, to the
    handles and to their promises, in the order they do it. *)
Inductive Action :=
  | XhrAbort (xhr : nat)
  | RegistryDelete (client : nat) (key : string)
  | RegistrySet (client : nat) (key : string) (f : AbortFn)
  | SlotSet (handle : nat) (f : option AbortFn)
  | Callback (call : nat) (o : GOutput).

(** [grpcHTTP] declares [cancels] in its body: every client it returns has a
    registry of its own. *)
Record World := {
  clients : list (gmap string AbortFn);   (* [cancels], client by client *)
  slots : list (option AbortFn);          (* the abort slot of each handle *)
  calls : list Call;                      (* the calls made, oldest first *)
  log : list Action;
}.

(** [cancels] as the calls of one client see it. *)
Definition cancels (client : nat) (w : World) : gmap string AbortFn :=
  default ∅ (clients w !! client).

Definition emit (a : Action) (w : World) : World :=
  {| clients := clients w; slots := slots w; calls := calls w;
     log := log w ++ [a] |}.

(** Calling a stored abort function asks the transport to abort.  What the
    transport does then, and when it raises [abort], is the transport's:
    an event is a step of its own. *)
Definition invoke (f : AbortFn) (w : World) : World :=
  match f with abortXHR xhr => emit (XhrAbort xhr) w end.

(** [delete cancels[key]]: the entry the registry owns under [key] goes.
    (Under an [ordinary_key] the key then reads as undefined.) *)
Definition registry_delete (client : nat) (key : string) (w : World)
  : World :=
  emit (RegistryDelete client key)
    {| clients := alter (delete key) client (clients w); slots := slots w;
       calls := calls w; log := log w |}.

(** [cancels[key] = f] *)
Definition registry_set (client : nat) (key : string) (f : AbortFn)
  (w : World) : World :=
  emit (RegistrySet client key f)
    {| clients := alter (insert key f) client (clients w); slots := slots w;
       calls := calls w; log := log w |}.

(** [handle.abort = f] *)
Definition slot_set (handle : nat) (f : option AbortFn) (w : World) : World :=
  emit (SlotSet handle f)
    {| clients := clients w; slots := <[handle := f]> (slots w);
       calls := calls w; log := log w |}.

(** [handle.abort] *)
Definition slot (handle : nat) (w : World) : option AbortFn :=
  match slots w !! handle with
  | Some f => f
  | None => None
  end.

Definition settle (o : GOutput) (c : Call) : Call :=
  {| call_client := call_client c; call_field := call_field c;
     call_cancel := call_cancel c;
     call_promise := resolve o (call_promise c) |}.

(** [callback(o)] in a listener of call [i]. *)
Definition callback (i : nat) (o : GOutput) (w : World) : World :=
  emit (Callback i o)
    {| clients := clients w; slots := slots w;
       calls := alter (settle o) i (calls w); log := log w |}.

(** The promise of call [i] that the listeners resolve. *)
Definition promise (i : nat) (w : World) : option (Promise GOutput) :=
  call_promise <$> calls w !! i.

(** ** [grpcCancel] *)

(** [grpcCancel()]: a new handle, its slot undefined. *)
Definition grpcCancel (w : World) : nat * World :=
  (length (slots w),
   {| clients := clients w; slots := slots w ++ [None];
      calls := calls w; log := log w |}).

(** [CancelFn()]: [CancelFn.abort?.(); CancelFn.abort = undefined]. *)
Definition CancelFn (handle : nat) (w : World) : World :=
  let w1 :=
    match slot handle w with
    | Some f => invoke f w
    | None => w
    end in
  slot_set handle None w1.

(** ** [grpcHTTP] *)

(** [isText] of [@whisklabs/typeguards] on a string: it is not empty. *)
Definition isText (s : string) : bool :=
  match s with
  | EmptyString => false
  | String _ _ => true
  end.

(** [grpcHTTP(config)]: it throws ([None]) on a configuration without a
    server, and otherwise returns a new client, whose registry owns no
    entry.  (Every [ordinary_key] then reads as undefined.) *)
Definition grpcHTTP (cfg : ConfigGRPC) (w : World) : option (nat * World) :=
  if negb (isText (server cfg)) then None
  else
    Some (length (clients w),
          {| clients := clients w ++ [∅]; slots := slots w;
             calls := calls w; log := log w |}).

Definition tmCancel (client : nat) (cancel : option Cancel) (w : World)
  : World :=
  match cancel with
  | Some (CancelKey key) => registry_delete client key w
  | Some (CancelHandle handle) => slot_set handle None w
  | None => w
  end.

(** A call on a client, from its first statement to [new Promise]: an
    earlier abort function under the same key is called and removed, the new
    one is stored, and the call starts with its promise pending.  The result
    is the number of the new call, which is also that of its [xhr].  The rest
    of the executor builds and sends the request; it touches neither the
    registry, nor the handles, nor the promise. *)
Definition grpc (client : nat) (field : Field) (cancel : option Cancel)
  (w : World) : nat * World :=
  let w1 :=
    match cancel with
    | Some (CancelKey key) =>
        match cancels client w !! key with
        | Some f => registry_delete client key (invoke f w)
        | None => w
        end
    | _ => w
    end in
  let xhr := length (calls w1) in
  let w2 :=
    match cancel with
    | Some (CancelKey key) => registry_set client key (abortXHR xhr) w1
    | Some (CancelHandle handle) => slot_set handle (Some (abortXHR xhr)) w1
    | None => w1
    end in
  (xhr,
   {| clients := clients w2; slots := slots w2;
      calls := calls w2 ++ [{| call_client := client; call_field := field;
                               call_cancel := cancel;
                               call_promise := Pending |}];
      log := log w2 |}).

(** The terminal events of the transport. *)
Inductive Event := EvTimeout | EvAbort | EvError | EvLoad.

(** What the listener of an event gives to [callback], if it calls it. *)
Definition outcome (ev : Event) (field : Field) (xhr : XHR)
  : option GOutput :=
  match ev with
  | EvTimeout => Some (timeout_outcome xhr)
  | EvAbort => Some (abort_outcome xhr)
  | EvError => Some (error_outcome xhr)
  | EvLoad => onready field xhr
  end.

(** A listener of call [i]: [tmCancel()], then [callback]. *)
Definition listener (ev : Event) (i : nat) (c : Call) (xhr : XHR) (w : World)
  : World :=
  let w1 := tmCancel (call_client c) (call_cancel c) w in
  match outcome ev (call_field c) xhr with
  | Some o => callback i o w1
  | None => w1
  end.

(** The transport raises [ev] on the [xhr] of call [i], which then reads as
    [xhr]. *)
Definition dispatch (i : nat) (ev : Event) (xhr : XHR) (w : World) : World :=
  match calls w !! i with
  | Some c => listener ev i c xhr w
  | None => w
  end.

(** What can happen in a process, one step at a time. *)
Inductive Step :=
  | DoGrpcHTTP (cfg : ConfigGRPC)
  | DoCall (client : nat) (field : Field) (cancel : option Cancel)
  | DoEvent (i : nat) (ev : Event) (xhr : XHR)
  | DoCancelFn (handle : nat)
  | DoGrpcCancel.

Definition step (s : Step) (w : World) : World :=
  match s with
  | DoGrpcHTTP cfg =>
      match grpcHTTP cfg w with
      | Some r => snd r
      | None => w
      end
  | DoCall client field cancel => snd (grpc client field cancel w)
  | DoEvent i ev xhr => dispatch i ev xhr w
  | DoCancelFn handle => CancelFn handle w
  | DoGrpcCancel => snd (grpcCancel w)
  end.

Definition run (ss : list Step) (w : World) : World :=
  fold_left (fun w s => step s w) ss w.

End Client.

Arguments Return {Any A} a.
Arguments Throw {Any A} e.
Arguments Pending {Any A}.
Arguments Fulfilled {Any A} v.
Arguments Rejected {Any A} reason.

(** The promise the caller of call [i] holds, on a client configured with
    [cfg]. *)
Definition delivered {Any} (cfg : @ConfigGRPC Any) (i : nat) (w : World)
  : option (Promise GOutput) :=
  returned cfg <$> promise i w.

(** Call [i] has resolved to [o]: its listeners' promise is fulfilled with
    [o], and so is the promise its caller holds when no [transformResponse]
    is configured. *)
Definition resolves_to {Any} (cfg : @ConfigGRPC Any) (i : nat) (o : GOutput)
  (w : World) : Prop :=
  promise i w = Some (Fulfilled o) /\
  (transformResponse cfg = None -> delivered cfg i w = Some (Fulfilled o)).


(** The frames hold a block of trailers that no message precedes. *)
Definition trailers_first (frames : list Chunk) : Prop :=
  exists pre trailers post,
    frames = pre ++ TRAILERS trailers :: post /\
    Forall (fun d => forall m, d <> MESSAGE m) pre.

(** The frames hold a message that no block of trailers precedes. *)
Definition message_first (frames : list Chunk) : Prop :=
  exists pre payload post,
    frames = pre ++ MESSAGE payload :: post /\
    Forall (fun d => forall t, d <> TRAILERS t) pre.

(** What [tmCancel] does for a call, as actions. *)
Definition clearing {Any} (client : nat) (cancel : option Cancel)
  : list (@Action Any) :=
  match cancel with
  | Some (CancelKey key) => [RegistryDelete client key]
  | Some (CancelHandle handle) => [SlotSet handle None]
  | None => []
  end.

(** The state [tmCancel] leaves the call's cancellation in. *)
Definition cleared {Any} (client : nat) (cancel : option Cancel)
  (w : @World Any) : Prop :=
  match cancel with
  | Some (CancelKey key) => cancels client w !! key = None
  | Some (CancelHandle handle) => slot handle w = None
  | None => True
  end.

(** The actions of [w'] that [w] does not have yet. *)
Definition since {Any} (w w' : @World Any) : list Action :=
  drop (length (log w)) (log w').

(** ** An instance to run the clients on *)

Module Demo.

(** A stand-in for the built-in [Number], to run the statements on: it is
    [Number] on the empty string, on an optional minus sign followed by one
    to fifteen decimal digits, and on the strings that are no numeric
    literal, which it sends to [NaN].  It is not [Number] on the other
    numeric literals (surrounding blanks, fractions, exponents, hexadecimal,
    [Infinity], longer digit strings): it answers [NaN] there.  The
    statements hold for every [Number]; the instance is used at inputs of
    the first kind only. *)
Definition digit (c : ascii) : option Z :=
  let n := Z.of_N (N_of_ascii c) in
  if (48 <=? n) && (n <=? 57) then Some (n - 48) else None.

Fixpoint digits (s : string) (acc : Z) : option Z :=
  match s with
  | EmptyString => Some acc
  | String c s' =>
      match digit c with
      | Some d => digits s' (10 * acc + d)
      | None => None
      end
  end.

Definition natural (s : string) : option number :=
  if ((1 <=? String.length s) && (String.length s <=? 15))%nat
  then (fun z => PrimFloat.of_uint63 (Uint63.of_Z z)) <$> digits s 0
  else None.

Definition decimal_Number (s : string) : number :=
  match s with
  | EmptyString => 0%float
  | String "-"%char s' =>
      match natural s' with
      | Some x => (- x)%float
      | None => nan
      end
  | _ => nullish (natural s) nan
  end.

(** Text for [Any]; the bytes are [xhr.response]; the frame parser and the
    codec are given by what they answer. *)
Definition imports (frames : @Completion string (list Chunk))
  (decoded : @Completion string string) : @Imports string :=
  {| Number := decimal_Number;
     fromHttpStatus := fromHttpStatus_table;
     toInt8 := response;
     bufToString := fun _ => "text"%string;
     chunkParse := fun _ => frames;
     safeJSON := fun s => s;
     Decode := fun _ _ => decoded |}.

Definition field : @Field string :=
  {| name := "Get"; encode := "enc"; decode := "dec" |}.

Definition xhr (st : Z) (body : option (list Byte.byte))
  (headers : list (string * string)) : XHR :=
  {| status := st; timeout := 0; response := body;
     getResponseHeader :=
       fun k => (list_to_map headers : gmap string string) !! k |}.

Definition cfg : @ConfigGRPC string :=
  {| server := "https://host"; transformResponse := None |}.

(** A hook that throws. *)
Definition throwing : @ConfigGRPC string :=
  {| server := "https://host";
     transformResponse := Some (fun _ => Rejected "hook failed"%string) |}.

(** A process with two clients, 0 and 1, and no call yet. *)
Definition start : @World string :=
  {| clients := [∅; ∅]; slots := []; calls := []; log := [] |}.

(** The call that a first call on client 0 under the key [k] starts, and the
    state it leaves. *)
Definition call0 : @Call string :=
  {| call_client := 0; call_field := field;
     call_cancel := Some (CancelKey "k"); call_promise := Pending |}.

Definition one_call : @World string :=
  snd (grpc 0 field (Some (CancelKey "k")) start).

(** A call on client 0 with a handle fresh from [grpcCancel], and the state
    it leaves. *)
Definition call_h : @Call string :=
  {| call_client := 0; call_field := field;
     call_cancel := Some (CancelHandle 0); call_promise := Pending |}.

Definition handle_call : @World string :=
  snd (grpc 0 field (Some (CancelHandle 0)) (snd (grpcCancel start))).

(** Trailers with [grpc-status: 3] and [grpc-message: bad arg], and trailers
    whose status is not a number. *)
Definition bad_arg : gmap string string :=
  {[ "grpc-status" := "3"; "grpc-message" := "bad arg" ]}.

Definition not_numeric : gmap string string :=
  {[ "grpc-status" := "abc" ]}.

(** A body of five bytes (the header of an empty message frame). *)
Definition body : list Byte.byte :=
  [Byte.x00; Byte.x00; Byte.x00; Byte.x00; Byte.x00].

End Demo.

(** ** The request side of a call *)

Section Request.

Context {Any : Type}.

(** [mask]: [true], or an object with a [field] and maybe an [outField]. *)
Inductive Mask :=
  | MaskTrue
  | MaskField (field : string) (outField : option string).

(** The part of [ConfigGRPC] the request path reads.  [transformRequest] is
    given for one call, its [xhr] and [meta] arguments fixed, by what its
    awaited result comes to: it throws or rejects, or it returns a value, of
    which [None] stands for a falsy one. *)
Record RequestConfig := {
  credentials : option bool;
  timeoutConfig : option Z;
  transformRequest : option (Any -> @Completion Any (option Any));
}.

(** The options of a call that the request path reads. *)
Record RequestOptions := {
  onDownload : option Any;
  onUpload : option Any;
  mask : option Mask;
  timeoutLocal : option Z;                (* [timeout] *)
}.

(** What the platform's [xhr] offers. *)
Record XhrSupport := {
  has_overrideMimeType : bool;            (* ['overrideMimeType' in xhr] *)
  has_upload : bool;                      (* [isObject(xhr.upload)] *)
}.

(** The helpers the request path imports from modules that are not among the
    sources.  [maskWrap] is called with one or with three arguments. *)
Class RequestImports := {
  Encode : Any -> Any -> @Completion Any (list Byte.byte);
  maskWrap : Any -> option (string * option string) -> Any;
  encodeRequest : list Byte.byte -> list Byte.byte;
}.

Context {request_imports : RequestImports}.

Inductive Target := OnXhr | OnUpload.

(** What a call does to its [xhr], in the order it does it. *)
Inductive XhrCall :=
  | SetTimeout (ms : Z)
  | Open (method url : string)
  | SetWithCredentials (b : bool)
  | OverrideMimeType (mime : string)
  | SetResponseType (type : string)
  | SetRequestHeader (name value : string)
  | AddEventListener (target : Target) (type : string)
  | Send (body : list Byte.byte).

(** From [xhr.timeout = ...] to the last [addEventListener] of the executor. *)
Definition setup (cfg : @ConfigGRPC Any) (rcfg : RequestConfig)
  (support : XhrSupport) (field : @Field Any) (opts : RequestOptions)
  : list XhrCall :=
  [SetTimeout (nullish (timeoutLocal opts) (nullish (timeoutConfig rcfg) 0));
   Open "POST" (server cfg ++ "/" ++ name field);
   SetWithCredentials (nullish (credentials rcfg) true)] ++
  (if has_overrideMimeType support
   then [OverrideMimeType "text/plain; charset=x-user-defined"] else []) ++
  [SetResponseType "arraybuffer";
   SetRequestHeader "content-type" "application/grpc-web+proto";
   SetRequestHeader "x-grpc-web" "1";
   SetRequestHeader "x-user-agent" "grpc-web-ts/1.0"] ++
  (if isPresent (onDownload opts)
   then [AddEventListener OnXhr "progress"] else []) ++
  (if isPresent (onUpload opts) && has_upload support
   then [AddEventListener OnUpload "progress"] else []) ++
  [AddEventListener OnXhr "timeout"; AddEventListener OnXhr "abort";
   AddEventListener OnXhr "error"; AddEventListener OnXhr "load"].

(** [sendData], after [(await transformRequest(...)) || values]. *)
Definition sendData (rcfg : RequestConfig) (values : Any)
  : @Completion Any Any :=
  match transformRequest rcfg with
  | Some f =>
      match f values with
      | Return (Some transformed) => Return transformed
      | Return None => Return values
      | Throw e => Throw e
      end
  | None => Return values
  end.

(** The argument of [Encode]. *)
Definition masked (m : option Mask) (data_ : Any) : Any :=
  match m with
  | Some MaskTrue => maskWrap data_ None
  | Some (MaskField field outField) =>
      if isText field then maskWrap data_ (Some (field, outField))
      else data_
  | None => data_
  end.

(** The calls a call makes on its [xhr], and what the executor threw, if it
    did: an executor that throws ends there, and [xhr.send] is its last
    statement.  The calls on the transport and [maskWrap] are taken to
    return normally. *)
Definition request (cfg : @ConfigGRPC Any) (rcfg : RequestConfig)
  (support : XhrSupport) (field : @Field Any) (values : Any)
  (opts : RequestOptions) : list XhrCall * option Any :=
  let before := setup cfg rcfg support field opts in
  match sendData rcfg values with
  | Throw e => (before, Some e)
  | Return data_ =>
      match Encode (encode field) (masked (mask opts) data_) with
      | Throw e => (before, Some e)
      | Return encoded => (before ++ [Send (encodeRequest encoded)], None)
      end
  end.

End Request.

(** The names under which a plain object answers with something it does not
    own: the properties of [Object.prototype] and, once [__proto__] has been
    assigned an abort function, those of that function and of
    [Function.prototype]. *)
Definition inherited_names : list string :=
  ["__proto__"; "__defineGetter__"; "__defineSetter__"; "__lookupGetter__";
   "__lookupSetter__"; "constructor"; "hasOwnProperty"; "isPrototypeOf";
   "propertyIsEnumerable"; "toLocaleString"; "toString"; "valueOf";
   "apply"; "bind"; "call"; "arguments"; "caller"; "length"; "name";
   "prototype"]%string.

(** A key under which [cancels[key]] reads an entry the registry owns, or
    nothing. *)
Definition ordinary_key (key : string) : bool :=
  forallb (fun inherited => negb (String.eqb key inherited)) inherited_names.

(** Every abort function that a registry or a handle holds is the one of a
    call made on that client under that key, or with that handle. *)
Definition owned {Any} (w : @World Any) : Prop :=
  (forall client key i,
      cancels client w !! key = Some (abortXHR i) ->
      exists c, calls w !! i = Some c /\
                call_client c = client /\
                call_cancel c = Some (CancelKey key))
  /\ (forall handle i,
         slot handle w = Some (abortXHR i) ->
         exists c, calls w !! i = Some c /\
                   call_cancel c = Some (CancelHandle handle)).

(** A call asked the transport to abort. *)
Definition is_abort {Any} (a : @Action Any) : Prop :=
  match a with
  | XhrAbort _ => True
  | _ => False
  end.

Module DemoRequest.

Definition imports : @RequestImports string :=
  {| Encode := fun _ v => Return (list_byte_of_string v);
     maskWrap := fun v m =>
       match m with
       | None => ("{mask:" ++ v ++ "}")%string
       | Some (f, _) => ("{" ++ f ++ ":" ++ v ++ "}")%string
       end;
     encodeRequest := fun bs => Byte.x00 :: bs |}.

Definition plain : @RequestConfig string :=
  {| credentials := None; timeoutConfig := Some 3000;
     transformRequest := None |}.

Definition failing : @RequestConfig string :=
  {| credentials := None; timeoutConfig := Some 3000;
     transformRequest := Some (fun _ => Throw "no token"%string) |}.

(** A hook that returns nothing. *)
Definition silent : @RequestConfig string :=
  {| credentials := None; timeoutConfig := Some 3000;
     transformRequest := Some (fun _ => Return None) |}.

Definition support : XhrSupport :=
  {| has_overrideMimeType := true; has_upload := true |}.

Definition opts : @RequestOptions string :=
  {| onDownload := None; onUpload := None; mask := None;
     timeoutLocal := Some 0 |}.

(** A mask object whose field is the empty string. *)
Definition blank_mask : @RequestOptions string :=
  {| onDownload := None; onUpload := None;
     mask := Some (MaskField "" (Some "out")); timeoutLocal := Some 0 |}.

End DemoRequest.

(** ** Properties *)

Section Properties.

Context {Any : Type} {imports : @Imports Any}.

Implicit Types (w : @World Any) (c : @Call Any) (o : @GOutput Any).

(** *** How each operation moves the state *)

Lemma calls_tmCancel client cancel w :
  calls (tmCancel client cancel w) = calls w.
Proof. destruct cancel as [[key | handle] |]; reflexivity. Qed.

Lemma log_tmCancel client cancel w :
  log (tmCancel client cancel w) = log w ++ clearing client cancel.
Proof.
  destruct cancel as [[key | handle] |]; simpl; try reflexivity.
  symmetry; apply app_nil_r.
Qed.

Lemma cancels_registry_delete client key w :
  cancels client (registry_delete client key w) !! key = None.
Proof.
  unfold cancels; simpl. rewrite list_lookup_alter_eq.
  destruct (clients w !! client) as [reg |]; simpl;
    [apply lookup_delete_eq | apply lookup_empty].
Qed.

Lemma slot_slot_set handle w : slot handle (slot_set handle None w) = None.
Proof.
  unfold slot; simpl.
  destruct (decide (handle < length (slots w))%nat) as [Hlt | Hge].
  - now rewrite list_lookup_insert_eq.
  - rewrite list_insert_ge by lia. now rewrite lookup_ge_None_2 by lia.
Qed.

Lemma cleared_tmCancel client cancel w :
  cleared client cancel (tmCancel client cancel w).
Proof.
  destruct cancel as [[key | handle] |]; simpl; [| | exact I].
  - apply cancels_registry_delete.
  - apply slot_slot_set.
Qed.

Lemma calls_invoke f w : calls (invoke f w) = calls w.
Proof. destruct f; reflexivity. Qed.

Lemma calls_CancelFn handle w : calls (CancelFn handle w) = calls w.
Proof.
  unfold CancelFn; simpl.
  destruct (slot handle w); [apply calls_invoke | reflexivity].
Qed.

Lemma calls_grpc client field cancel w :
  calls (snd (grpc client field cancel w)) =
  calls w ++ [{| call_client := client; call_field := field;
                 call_cancel := cancel; call_promise := Pending |}].
Proof.
  unfold grpc; simpl.
  destruct cancel as [[key | handle] |]; simpl; try reflexivity.
  destruct (cancels client w !! key); simpl; [| reflexivity].
  now rewrite calls_invoke.
Qed.

Lemma calls_grpcHTTP cfg w :
  calls (step (DoGrpcHTTP cfg) w) = calls w.
Proof. simpl. unfold grpcHTTP. now destruct (negb _). Qed.

Lemma lookup_callback i o w c :
  calls w !! i = Some c -> calls (callback i o w) !! i = Some (settle o c).
Proof.
  intros Hc; simpl. rewrite list_lookup_alter_eq, Hc. reflexivity.
Qed.

Lemma lookup_callback_ne i j o w :
  i <> j -> calls (callback i o w) !! j = calls w !! j.
Proof. intros Hne; simpl. now apply list_lookup_alter_ne. Qed.

(** The listener of an event always calls [callback]. *)
Lemma outcome_total ev field xhr : is_Some (outcome ev field xhr).
Proof.
  destruct ev; simpl; eauto. unfold onready.
  destruct (_ || _); eauto.
  destruct (toInt8 xhr) as [byteSource |]; eauto.
  destruct (chunkParse byteSource) as [frames | e]; eauto.
  destruct frames as [| [payload | trailers] rest]; simpl; eauto.
Qed.

Lemma dispatch_lookup i ev xhr w c o :
  calls w !! i = Some c ->
  outcome ev (call_field c) xhr = Some o ->
  calls (dispatch i ev xhr w) !! i = Some (settle o c).
Proof.
  intros Hc Ho. unfold dispatch, listener. rewrite Hc, Ho.
  apply lookup_callback. now rewrite calls_tmCancel.
Qed.

Lemma dispatch_lookup_ne i j ev xhr w :
  i <> j -> calls (dispatch i ev xhr w) !! j = calls w !! j.
Proof.
  intros Hne. unfold dispatch, listener.
  destruct (calls w !! i) as [c |]; [| reflexivity].
  destruct (outcome_total ev (call_field c) xhr) as [o Ho]. rewrite Ho.
  rewrite lookup_callback_ne by assumption. now rewrite calls_tmCancel.
Qed.

Lemma dispatch_log i ev xhr w c o :
  calls w !! i = Some c ->
  outcome ev (call_field c) xhr = Some o ->
  log (dispatch i ev xhr w) =
  log w ++ clearing (call_client c) (call_cancel c) ++ [Callback i o].
Proof.
  intros Hc Ho. unfold dispatch, listener. rewrite Hc, Ho. simpl.
  now rewrite log_tmCancel, <- app_assoc.
Qed.

Lemma dispatch_cleared i ev xhr w c :
  calls w !! i = Some c ->
  cleared (call_client c) (call_cancel c) (dispatch i ev xhr w).
Proof.
  intros Hc. unfold dispatch, listener. rewrite Hc.
  pose proof (cleared_tmCancel (call_client c) (call_cancel c) w) as Hcl.
  destruct (outcome ev (call_field c) xhr); [| assumption].
  destruct (call_cancel c) as [[key | handle] |]; exact Hcl.
Qed.

Lemma returned_no_hook cfg o :
  transformResponse cfg = None -> returned cfg (Fulfilled o) = Fulfilled o.
Proof. intros Hn. unfold returned; simpl. now rewrite Hn. Qed.

(** A pending call whose listener hands [o] to [callback] resolves to [o]. *)
Lemma dispatch_resolves cfg i ev xhr w c o :
  calls w !! i = Some c ->
  call_promise c = Pending ->
  outcome ev (call_field c) xhr = Some o ->
  resolves_to cfg i o (dispatch i ev xhr w).
Proof.
  intros Hc Hp Ho.
  assert (promise i (dispatch i ev xhr w) = Some (Fulfilled o)) as Hr.
  { unfold promise. rewrite (dispatch_lookup _ _ _ _ _ _ Hc Ho). simpl.
    now rewrite Hp. }
  split; [exact Hr |].
  intros Hn. unfold delivered. rewrite Hr. simpl.
  now rewrite returned_no_hook.
Qed.

(** The imported helpers bear on an event only through what the listener
    gives to [callback]. *)
Lemma dispatch_ext (I' : @Imports Any) i ev xhr w :
  (forall c, calls w !! i = Some c ->
             @outcome _ I' ev (call_field c) xhr =
             @outcome _ imports ev (call_field c) xhr) ->
  @dispatch _ I' i ev xhr w = @dispatch _ imports i ev xhr w.
Proof.
  intros Hext. unfold dispatch, listener.
  destruct (calls w !! i) as [c |]; [| reflexivity].
  now rewrite (Hext c eq_refl).
Qed.

(** *** The [load] listener, branch by branch *)

Lemma wrong_status_test xhr :
  (status xhr <? 200) || (status xhr >=? 300) = true <->
  status xhr < 200 \/ 300 <= status xhr.
Proof. rewrite orb_true_iff, Z.ltb_lt, Z.geb_le. reflexivity. Qed.

Lemma onready_wrong_status field xhr :
  status xhr < 200 \/ 300 <= status xhr ->
  onready field xhr =
  Some (GError {| message := Some "XHR wrong status";
                  data := Some (Value (bufToString xhr));
                  httpStatus := Some (status xhr);
                  grpcCode := Some (fromHttpStatus (status xhr)) |}).
Proof.
  intros Hs. apply wrong_status_test in Hs. unfold onready. now rewrite Hs.
Qed.

Lemma onready_2xx field xhr :
  200 <= status xhr < 300 ->
  onready field xhr =
  match toInt8 xhr with
  | None =>
      Some (GError {| message := Some "GRPC no bytes"; data := None;
                      httpStatus := None; grpcCode := None |})
  | Some byteSource =>
      match chunkParse byteSource with
      | Throw error =>
          Some (GError {| message := Some "GRPC parsing error";
                          data := Some (Value error);
                          httpStatus := None; grpcCode := None |})
      | Return [] => Some (header_outcome xhr)
      | Return frames => scan field xhr frames
      end
  end.
Proof.
  intros Hs. unfold onready.
  destruct ((status xhr <? 200) || (status xhr >=? 300)) eqn:Ht.
  - apply wrong_status_test in Ht. lia.
  - destruct (toInt8 xhr) as [byteSource |]; [| reflexivity].
    destruct (chunkParse byteSource) as [[| d rest] | e]; reflexivity.
Qed.

Lemma trailers_first_head frames :
  trailers_first frames ->
  exists trailers rest, frames = TRAILERS trailers :: rest.
Proof.
  intros (pre & t & post & -> & Hpre).
  destruct pre as [| [m | t'] pre']; simpl; eauto.
  inversion Hpre as [| ? ? Hd _]; subst. now destruct (Hd m).
Qed.

Lemma message_first_head frames :
  message_first frames ->
  exists payload rest, frames = MESSAGE payload :: rest.
Proof.
  intros (pre & m & post & -> & Hpre).
  destruct pre as [| [m' | t] pre']; simpl; eauto.
  inversion Hpre as [| ? ? Hd _]; subst. now destruct (Hd t).
Qed.

(** C6: a [load] event whose status is below 200 or at least 300 resolves a
    pending call to the failure ['XHR wrong status'] with the transport's
    status as [httpStatus] and [fromHttpStatus] of it as [grpcCode]; with the
    specification's table at 404 that is [httpStatus] 404 and [grpcCode]
    [NOT_FOUND = 5]; and the listener does the same whatever [toInt8],
    [chunkParse] and [Decode] are: the body is not parsed. *)
Theorem load_wrong_status cfg w i c xhr :
  calls w !! i = Some c ->
  call_promise c = Pending ->
  status xhr < 200 \/ 300 <= status xhr ->
  resolves_to cfg i
    (GError {| message := Some "XHR wrong status";
               data := Some (Value (bufToString xhr));
               httpStatus := Some (status xhr);
               grpcCode := Some (fromHttpStatus (status xhr)) |})
    (dispatch i EvLoad xhr w)
  /\ (status xhr = 404 ->
      fromHttpStatus 404 = fromHttpStatus_table 404 ->
      resolves_to cfg i
        (GError {| message := Some "XHR wrong status";
                   data := Some (Value (bufToString xhr));
                   httpStatus := Some 404;
                   grpcCode := Some 5%float |})
        (dispatch i EvLoad xhr w))
  /\ (forall I' : @Imports Any,
        @bufToString _ I' xhr = @bufToString _ imports xhr ->
        @fromHttpStatus _ I' (status xhr) =
        @fromHttpStatus _ imports (status xhr) ->
        @dispatch _ I' i EvLoad xhr w = @dispatch _ imports i EvLoad xhr w).
Proof.
  intros Hc Hp Hs.
  pose proof (onready_wrong_status (call_field c) xhr Hs) as Ho.
  assert (resolves_to cfg i
            (GError {| message := Some "XHR wrong status";
                       data := Some (Value (bufToString xhr));
                       httpStatus := Some (status xhr);
                       grpcCode := Some (fromHttpStatus (status xhr)) |})
            (dispatch i EvLoad xhr w)) as Hr
    by (eapply dispatch_resolves; eassumption).
  split; [exact Hr |]. split.
  - intros H404 Htab. rewrite H404, Htab in Hr. exact Hr.
  - intros I' Hb Hf. apply dispatch_ext. intros c' _. simpl.
    apply wrong_status_test in Hs. unfold onready. now rewrite Hs, Hb, Hf.
Qed.

(** C9: a [load] event with a 2xx status on which [toInt8] yields no bytes
    resolves a pending call to the failure ['GRPC no bytes'], and the
    listener does the same whatever [chunkParse] and [Decode] are: no frame
    is parsed. *)
Theorem load_no_bytes cfg w i c xhr :
  calls w !! i = Some c ->
  call_promise c = Pending ->
  200 <= status xhr < 300 ->
  toInt8 xhr = None ->
  resolves_to cfg i
    (GError {| message := Some "GRPC no bytes"; data := None;
               httpStatus := None; grpcCode := None |})
    (dispatch i EvLoad xhr w)
  /\ (forall I' : @Imports Any,
        @toInt8 _ I' xhr = None ->
        @dispatch _ I' i EvLoad xhr w = @dispatch _ imports i EvLoad xhr w).
Proof.
  intros Hc Hp Hs Hb.
  assert (onready (call_field c) xhr =
          Some (GError {| message := Some "GRPC no bytes"; data := None;
                          httpStatus := None; grpcCode := None |})) as Ho
    by (rewrite onready_2xx, Hb; [reflexivity | assumption]).
  split; [eapply dispatch_resolves; eassumption |].
  intros I' Hb'. apply dispatch_ext. intros c' _. simpl. unfold onready.
  destruct ((status xhr <? 200) || (status xhr >=? 300)) eqn:Ht.
  - apply wrong_status_test in Ht. lia.
  - now rewrite Hb, Hb'.
Qed.

(** C2: a [load] event with a 2xx status whose frames hold a block of
    trailers before any message resolves a pending call to a failure: its
    message is the [grpc-message] of those trailers, the empty string when
    they have none; its [grpcCode] is [OK = 0] when the trailers have no
    [grpc-status], [Number] of it when that is [>= 0], and [fromHttpStatus]
    of the transport's status otherwise, which takes in a [grpc-status] that
    is not numeric ([NaN]). *)
Theorem load_trailers cfg w i c xhr byteSource frames :
  calls w !! i = Some c ->
  call_promise c = Pending ->
  200 <= status xhr < 300 ->
  toInt8 xhr = Some byteSource ->
  chunkParse byteSource = Return frames ->
  trailers_first frames ->
  exists trailers rest,
    frames = TRAILERS trailers :: rest /\
    resolves_to cfg i
      (GError
         {| message := Some (default "" (trailers !! "grpc-message"));
            data := Some (Value (safeJSON
                                   (default "" (trailers !! "grpc-message"))));
            httpStatus := Some (status xhr);
            grpcCode :=
              Some match trailers !! "grpc-status" with
                   | None => 0%float
                   | Some s =>
                       if PrimFloat.leb 0 (Number s) then Number s
                       else fromHttpStatus (status xhr)
                   end |})
      (dispatch i EvLoad xhr w).
Proof.
  intros Hc Hp Hs Hb Hparse Hfirst.
  destruct (trailers_first_head _ Hfirst) as (trailers & rest & ->).
  exists trailers, rest. split; [reflexivity |].
  eapply dispatch_resolves; [eassumption .. |]. simpl.
  rewrite onready_2xx, Hb, Hparse by assumption. simpl.
  unfold trailers_outcome, trailers_code, GRPC_MESSAGE, GRPC_STATUS, ge0.
  destruct (trailers !! "grpc-message"), (trailers !! "grpc-status");
    reflexivity.
Qed.

(** C3: a [load] event with a 2xx status, bytes and no frame resolves a
    pending call from the response headers: with a [grpc-status] header, to
    the failure whose message is the [grpc-message] header, the empty string
    when there is none, and whose [grpcCode] is [Number] of the status
    header; with none, to the failure ['Failed to parse GRPC status'] with no
    [grpcCode].  With one frame or more the headers are not read: any other
    headers give the same. *)
Theorem load_no_frames cfg w i c xhr byteSource frames :
  calls w !! i = Some c ->
  call_promise c = Pending ->
  200 <= status xhr < 300 ->
  toInt8 xhr = Some byteSource ->
  chunkParse byteSource = Return frames ->
  (frames = [] ->
   resolves_to cfg i
     match getResponseHeader xhr "grpc-status" with
     | Some s =>
         GError
           {| message :=
                Some (default "" (getResponseHeader xhr "grpc-message"));
              data := Some (Value (safeJSON
                       (default "" (getResponseHeader xhr "grpc-message"))));
              httpStatus := Some (status xhr);
              grpcCode := Some (Number s) |}
     | None =>
         GError
           {| message := Some "Failed to parse GRPC status";
              data := Some (Value (safeJSON "Failed to parse GRPC status"));
              httpStatus := Some (status xhr);
              grpcCode := None |}
     end
     (dispatch i EvLoad xhr w))
  /\ (frames <> [] ->
      forall headers : string -> option string,
        let xhr' := {| status := status xhr; timeout := timeout xhr;
                       response := response xhr;
                       getResponseHeader := headers |} in
        toInt8 xhr' = Some byteSource ->
        dispatch i EvLoad xhr' w = dispatch i EvLoad xhr w).
Proof.
  intros Hc Hp Hs Hb Hparse. split.
  - intros ->. eapply dispatch_resolves; [eassumption .. |]. simpl.
    rewrite onready_2xx, Hb, Hparse by assumption.
    unfold header_outcome, GRPC_MESSAGE, GRPC_STATUS.
    destruct (getResponseHeader xhr "grpc-status"),
      (getResponseHeader xhr "grpc-message"); reflexivity.
  - intros Hne headers xhr' Hb'. unfold dispatch, listener. rewrite Hc.
    simpl. rewrite (onready_2xx _ xhr), (onready_2xx _ xhr'), Hb, Hb', Hparse
      by assumption.
    destruct frames as [| [payload | trailers] rest]; [congruence | ..];
      reflexivity.
Qed.

(** C5: a [load] event with a 2xx status whose frames hold a message before
    any block of trailers resolves a pending call to the success that
    carries [Decode(field.decode, payload)] for the payload of the first
    frame, and, when that throws, to the failure ['Decode error'] with the
    thrown value as data and the transport's status as [httpStatus]. *)
Theorem load_message cfg w i c xhr byteSource frames :
  calls w !! i = Some c ->
  call_promise c = Pending ->
  200 <= status xhr < 300 ->
  toInt8 xhr = Some byteSource ->
  chunkParse byteSource = Return frames ->
  message_first frames ->
  exists payload rest,
    frames = MESSAGE payload :: rest /\
    resolves_to cfg i
      match Decode (decode (call_field c)) payload with
      | Return v => GSuccess v
      | Throw e =>
          GError {| message := Some "Decode error"; data := Some (Value e);
                    httpStatus := Some (status xhr); grpcCode := None |}
      end
      (dispatch i EvLoad xhr w).
Proof.
  intros Hc Hp Hs Hb Hparse Hfirst.
  destruct (message_first_head _ Hfirst) as (payload & rest & ->).
  exists payload, rest. split; [reflexivity |].
  eapply dispatch_resolves; [eassumption .. |]. simpl.
  now rewrite onready_2xx, Hb, Hparse by assumption.
Qed.

(** *** The other terminal events *)

(** C7: on [timeout], [abort] and [error] the listener of a call first clears
    the call's cancellation (it runs [delete] on its key, or sets the abort
    slot of its handle to undefined), then gives [callback] a failure whose
    message is ['timeout'], ['cancelled'] and ['XHR error'] in turn, the one
    of [abort] with [grpcCode] [CANCELLED]; a pending call resolves to it.
    After that the slot is undefined, and so is what the key reads as when
    the key is an ordinary one. *)
Theorem terminal_event_failure cfg w i c ev xhr :
  calls w !! i = Some c ->
  ev <> EvLoad ->
  let o :=
    match ev with
    | EvTimeout =>
        GError {| message := Some "timeout";
                  data := Some (Millis (timeout xhr));
                  httpStatus := None; grpcCode := None |}
    | EvAbort =>
        GError {| message := Some "cancelled"; data := None;
                  httpStatus := Some (status xhr);
                  grpcCode := Some (code CANCELLED) |}
    | _ =>
        GError {| message := Some "XHR error";
                  data := Some (Value (bufToString xhr));
                  httpStatus := Some (status xhr);
                  grpcCode := Some (fromHttpStatus (status xhr)) |}
    end in
  log (dispatch i ev xhr w) =
  log w ++
  match call_cancel c with
  | Some (CancelKey key) => [RegistryDelete (call_client c) key]
  | Some (CancelHandle handle) => [SlotSet handle None]
  | None => []
  end ++ [Callback i o]
  /\ match call_cancel c with
     | Some (CancelKey key) =>
         ordinary_key key = true ->
         cancels (call_client c) (dispatch i ev xhr w) !! key = None
     | Some (CancelHandle handle) => slot handle (dispatch i ev xhr w) = None
     | None => True
     end
  /\ (call_promise c = Pending -> resolves_to cfg i o (dispatch i ev xhr w)).
Proof.
  intros Hc Hev o.
  assert (outcome ev (call_field c) xhr = Some o) as Ho
    by (destruct ev; [reflexivity .. | congruence]).
  split; [| split].
  - apply dispatch_log; assumption.
  - pose proof (dispatch_cleared i ev xhr w c Hc) as Hcl.
    destruct (call_cancel c) as [[key | handle] |]; [| exact Hcl ..].
    intros _. exact Hcl.
  - intros Hp. eapply dispatch_resolves; eassumption.
Qed.

(** *** The registry and the handles *)

Lemma cancels_registry_set client key f w reg :
  clients w !! client = Some reg ->
  cancels client (registry_set client key f w) = <[key := f]> reg.
Proof.
  intros Hreg. unfold cancels; simpl.
  now rewrite list_lookup_alter_eq, Hreg.
Qed.


Lemma grpc_reuse w client key old field :
  cancels client w !! key = Some (abortXHR old) ->
  let r := grpc client field (Some (CancelKey key)) w in
  fst r = length (calls w)
  /\ log (snd r) =
     log w ++ [XhrAbort old; RegistryDelete client key;
               RegistrySet client key (abortXHR (fst r))]
  /\ cancels client (snd r) = <[key := abortXHR (fst r)]> (cancels client w)
  /\ promise (fst r) (snd r) = Some Pending.
Proof.
  intros Hold r.
  assert (exists reg, clients w !! client = Some reg) as [reg Hreg].
  { unfold cancels in Hold. destruct (clients w !! client) as [reg |]; eauto.
    simpl in Hold. now rewrite lookup_empty in Hold. }
  subst r. unfold grpc. rewrite Hold.
  split; [reflexivity |]. split; [| split].
  - simpl. now rewrite <- !app_assoc.
  - unfold cancels; simpl.
    rewrite !list_lookup_alter_eq, Hreg. simpl. apply insert_delete_eq.
  - unfold promise; simpl. now rewrite lookup_app_r, Nat.sub_diag by lia.
Qed.


Lemma CancelFn_undefined handle w :
  slot handle w = None -> CancelFn handle w = slot_set handle None w.
Proof. intros Hs. unfold CancelFn. now rewrite Hs. Qed.

Lemma slots_CancelFn handle w :
  slots (CancelFn handle w) = <[handle := None]> (slots w).
Proof.
  unfold CancelFn. simpl. now destruct (slot handle w) as [[xhr] |].
Qed.

(** C10: calling a handle calls the abort function in its slot, if there is
    one, then sets the slot to undefined; calling it again calls no abort
    function and leaves the registries, the slots and the calls as the first
    call left them.  A handle fresh from [grpcCancel] has an undefined
    slot. *)
Theorem CancelFn_twice w handle :
  let w1 := CancelFn handle w in
  let w2 := CancelFn handle w1 in
  log w1 =
  log w ++
  match slot handle w with
  | Some (abortXHR xhr) => [XhrAbort xhr]
  | None => []
  end ++ [SlotSet handle None]
  /\ slot handle w1 = None
  /\ log w2 = log w1 ++ [SlotSet handle None]
  /\ clients w2 = clients w1
  /\ slots w2 = slots w1
  /\ calls w2 = calls w1
  /\ slot (fst (grpcCancel w)) (snd (grpcCancel w)) = None.
Proof.
  intros w1 w2.
  assert (slot handle w1 = None) as Hclear by apply slot_slot_set.
  assert (w2 = slot_set handle None w1) as Hw2
    by (apply CancelFn_undefined; exact Hclear).
  split; [| split; [exact Hclear | ]].
  - subst w1. unfold CancelFn. simpl.
    destruct (slot handle w) as [[xhr] |]; simpl;
      [now rewrite <- app_assoc | reflexivity].
  - rewrite Hw2.
    split; [reflexivity |]. split; [reflexivity |].
    split; [| split; [reflexivity |]].
    + change (<[handle := None]> (slots w1) = slots w1).
      unfold w1. rewrite slots_CancelFn. apply list_insert_insert_eq.
    + unfold slot, grpcCancel; simpl.
      now rewrite lookup_app_r, Nat.sub_diag by lia.
Qed.

(** *** One outcome per call *)







(** C8: the promise the caller receives is never rejected.  A rejection that
    reaches the end of the chain, and so the one of a [transformResponse]
    that throws or rejects, is fulfilled as the failure that carries the
    raw reason as its only field, [{ success: false, error: { data } }]. *)
Theorem rejections_are_caught cfg (p : Promise GOutput) :
  let failure e :=
    GError {| message := None; data := Some (Value e);
              httpStatus := None; grpcCode := None |} in
  (forall e, returned cfg p <> Rejected e)
  /\ (forall e, p = Rejected e -> returned cfg p = Fulfilled (failure e))
  /\ (forall o f e,
        p = Fulfilled o ->
        transformResponse cfg = Some f ->
        f o = Rejected e ->
        returned cfg p = Fulfilled (failure e))
  /\ (forall o f v,
        p = Fulfilled o ->
        transformResponse cfg = Some f ->
        f o = Fulfilled v ->
        returned cfg p = Fulfilled v).
Proof.
  intros failure. unfold returned. repeat split.
  - intros e. destruct p as [| o | e']; simpl; [discriminate | | discriminate].
    destruct (transformResponse cfg) as [f |]; [| discriminate].
    destruct (f o); simpl; discriminate.
  - intros e ->. reflexivity.
  - intros o f e -> Hf Hr. simpl. now rewrite Hf, Hr.
  - intros o f v -> Hf Hr. simpl. now rewrite Hf, Hr.
Qed.

End Properties.

(** ** The statements at work *)

Example decimal_Number_samples :
  Demo.decimal_Number "3" = 3%float
  /\ Demo.decimal_Number "404" = 404%float
  /\ Demo.decimal_Number "-1" = (-1)%float
  /\ Demo.decimal_Number "" = 0%float
  /\ Demo.decimal_Number "abc" = nan
  /\ ge0 (Demo.decimal_Number "abc") = false
  /\ ge0 (Demo.decimal_Number "-1") = false.
Proof. repeat split. Qed.


Lemma load_trailers_witness :
  resolves_to Demo.cfg 0
    (GError {| message := Some "bad arg"; data := Some (Value "bad arg");
               httpStatus := Some 200; grpcCode := Some 3%float |})
    (dispatch (imports := Demo.imports (Return [TRAILERS Demo.bad_arg])
                            (Return "m"))
       0 EvLoad (Demo.xhr 200 (Some Demo.body) []) Demo.one_call)
  /\ resolves_to Demo.cfg 0
       (GError {| message := Some ""; data := Some (Value "");
                  httpStatus := Some 200; grpcCode := Some 2%float |})
       (dispatch (imports := Demo.imports
                               (Return [TRAILERS Demo.not_numeric])
                               (Return "m"))
          0 EvLoad (Demo.xhr 200 (Some Demo.body) []) Demo.one_call)
  /\ resolves_to Demo.cfg 0
       (GError {| message := Some ""; data := Some (Value "");
                  httpStatus := Some 200; grpcCode := Some 0%float |})
       (dispatch (imports := Demo.imports (Return [TRAILERS ∅]) (Return "m"))
          0 EvLoad (Demo.xhr 200 (Some Demo.body) []) Demo.one_call).
Proof.
  split; [| split].
  - destruct (load_trailers
                (imports := Demo.imports (Return [TRAILERS Demo.bad_arg])
                              (Return "m"))
                Demo.cfg Demo.one_call 0 Demo.call0
                (Demo.xhr 200 (Some Demo.body) []) Demo.body
                [TRAILERS Demo.bad_arg]
                eq_refl eq_refl
                (conj (Zle_bool_imp_le 200 200 eq_refl) eq_refl)
                eq_refl eq_refl
                (ex_intro _ [] (ex_intro _ Demo.bad_arg (ex_intro _ []
                   (conj eq_refl (Forall_nil_2 _))))))
      as (trailers & rest & Hframes & Hres).
    injection Hframes as <- <-. exact Hres.
  - destruct (load_trailers
                (imports := Demo.imports (Return [TRAILERS Demo.not_numeric])
                              (Return "m"))
                Demo.cfg Demo.one_call 0 Demo.call0
                (Demo.xhr 200 (Some Demo.body) []) Demo.body
                [TRAILERS Demo.not_numeric]
                eq_refl eq_refl
                (conj (Zle_bool_imp_le 200 200 eq_refl) eq_refl)
                eq_refl eq_refl
                (ex_intro _ [] (ex_intro _ Demo.not_numeric (ex_intro _ []
                   (conj eq_refl (Forall_nil_2 _))))))
      as (trailers & rest & Hframes & Hres).
    injection Hframes as <- <-. exact Hres.
  - destruct (load_trailers
                (imports := Demo.imports (Return [TRAILERS ∅]) (Return "m"))
                Demo.cfg Demo.one_call 0 Demo.call0
                (Demo.xhr 200 (Some Demo.body) []) Demo.body
                [TRAILERS ∅]
                eq_refl eq_refl
                (conj (Zle_bool_imp_le 200 200 eq_refl) eq_refl)
                eq_refl eq_refl
                (ex_intro _ [] (ex_intro _ ∅ (ex_intro _ []
                   (conj eq_refl (Forall_nil_2 _))))))
      as (trailers & rest & Hframes & Hres).
    injection Hframes as <- <-. exact Hres.
Defined.

Lemma load_no_frames_witness :
  resolves_to Demo.cfg 0
    (GError {| message := Some "denied"; data := Some (Value "denied");
               httpStatus := Some 200; grpcCode := Some 7%float |})
    (dispatch (imports := Demo.imports (Return []) (Return "m"))
       0 EvLoad
       (Demo.xhr 200 (Some Demo.body)
          [("grpc-status", "7"); ("grpc-message", "denied")])
       Demo.one_call)
  /\ dispatch (imports := Demo.imports (Return [TRAILERS Demo.bad_arg])
                            (Return "m"))
       0 EvLoad
       (Demo.xhr 200 (Some Demo.body) [("grpc-status", "7")])
       Demo.one_call =
     dispatch (imports := Demo.imports (Return [TRAILERS Demo.bad_arg])
                            (Return "m"))
       0 EvLoad (Demo.xhr 200 (Some Demo.body) []) Demo.one_call.
Proof.
  split.
  - exact (proj1 (load_no_frames
                    (imports := Demo.imports (Return []) (Return "m"))
                    Demo.cfg Demo.one_call 0 Demo.call0
                    (Demo.xhr 200 (Some Demo.body)
                       [("grpc-status", "7"); ("grpc-message", "denied")])
                    Demo.body []
                    eq_refl eq_refl
                    (conj (Zle_bool_imp_le 200 200 eq_refl) eq_refl)
                    eq_refl eq_refl)
             eq_refl).
  - exact (proj2 (load_no_frames
                    (imports := Demo.imports (Return [TRAILERS Demo.bad_arg])
                                  (Return "m"))
                    Demo.cfg Demo.one_call 0 Demo.call0
                    (Demo.xhr 200 (Some Demo.body) [])
                    Demo.body [TRAILERS Demo.bad_arg]
                    eq_refl eq_refl
                    (conj (Zle_bool_imp_le 200 200 eq_refl) eq_refl)
                    eq_refl eq_refl)
             (fun H => nil_cons (eq_sym H))
             (getResponseHeader
                (Demo.xhr 200 (Some Demo.body) [("grpc-status", "7")]))
             eq_refl).
Defined.



Lemma load_message_witness :
  resolves_to Demo.cfg 0 (GSuccess "m")
    (dispatch (imports := Demo.imports
                            (Return [MESSAGE Demo.body; TRAILERS ∅])
                            (Return "m"))
       0 EvLoad (Demo.xhr 200 (Some Demo.body) []) Demo.one_call)
  /\ resolves_to Demo.cfg 0
       (GError {| message := Some "Decode error";
                  data := Some (Value "bad wire type");
                  httpStatus := Some 200; grpcCode := None |})
       (dispatch (imports := Demo.imports
                               (Return [MESSAGE Demo.body; TRAILERS ∅])
                               (Throw "bad wire type"))
          0 EvLoad (Demo.xhr 200 (Some Demo.body) []) Demo.one_call).
Proof.
  split.
  - destruct (load_message
                (imports := Demo.imports
                              (Return [MESSAGE Demo.body; TRAILERS ∅])
                              (Return "m"))
                Demo.cfg Demo.one_call 0 Demo.call0
                (Demo.xhr 200 (Some Demo.body) []) Demo.body
                [MESSAGE Demo.body; TRAILERS ∅]
                eq_refl eq_refl
                (conj (Zle_bool_imp_le 200 200 eq_refl) eq_refl)
                eq_refl eq_refl
                (ex_intro _ [] (ex_intro _ Demo.body (ex_intro _ [TRAILERS ∅]
                   (conj eq_refl (Forall_nil_2 _))))))
      as (payload & rest & Hframes & Hres).
    exact Hres.
  - destruct (load_message
                (imports := Demo.imports
                              (Return [MESSAGE Demo.body; TRAILERS ∅])
                              (Throw "bad wire type"))
                Demo.cfg Demo.one_call 0 Demo.call0
                (Demo.xhr 200 (Some Demo.body) []) Demo.body
                [MESSAGE Demo.body; TRAILERS ∅]
                eq_refl eq_refl
                (conj (Zle_bool_imp_le 200 200 eq_refl) eq_refl)
                eq_refl eq_refl
                (ex_intro _ [] (ex_intro _ Demo.body (ex_intro _ [TRAILERS ∅]
                   (conj eq_refl (Forall_nil_2 _))))))
      as (payload & rest & Hframes & Hres).
    exact Hres.
Defined.

Lemma load_wrong_status_witness :
  resolves_to Demo.cfg 0
    (GError {| message := Some "XHR wrong status";
               data := Some (Value "text");
               httpStatus := Some 404; grpcCode := Some 5%float |})
    (dispatch (imports := Demo.imports (Return []) (Return "m"))
       0 EvLoad (Demo.xhr 404 None []) Demo.one_call).
Proof.
  exact (proj1 (proj2 (load_wrong_status
                         (imports := Demo.imports (Return []) (Return "m"))
                         Demo.cfg Demo.one_call 0 Demo.call0
                         (Demo.xhr 404 None [])
                         eq_refl eq_refl
                         (or_intror (Zle_bool_imp_le 300 404 eq_refl))))
           eq_refl eq_refl).
Defined.

Lemma terminal_event_failure_witness :
  (log (dispatch (imports := Demo.imports (Return []) (Return "m"))
          0 EvTimeout (Demo.xhr 0 None []) Demo.one_call) =
   [RegistrySet 0 "k" (abortXHR 0); RegistryDelete 0 "k";
    Callback 0 (GError {| message := Some "timeout";
                          data := Some (Millis 0);
                          httpStatus := None; grpcCode := None |})]
   /\ cancels 0
        (dispatch (imports := Demo.imports (Return []) (Return "m"))
           0 EvTimeout (Demo.xhr 0 None []) Demo.one_call) !! "k" = None
   /\ resolves_to Demo.cfg 0
        (GError {| message := Some "timeout"; data := Some (Millis 0);
                   httpStatus := None; grpcCode := None |})
        (dispatch (imports := Demo.imports (Return []) (Return "m"))
           0 EvTimeout (Demo.xhr 0 None []) Demo.one_call))
  /\ (log (dispatch (imports := Demo.imports (Return []) (Return "m"))
             0 EvAbort (Demo.xhr 0 None []) Demo.handle_call) =
      [SlotSet 0 (Some (abortXHR 0)); SlotSet 0 None;
       Callback 0 (GError {| message := Some "cancelled"; data := None;
                             httpStatus := Some 0;
                             grpcCode := Some (code CANCELLED) |})]
      /\ slot 0
           (dispatch (imports := Demo.imports (Return []) (Return "m"))
              0 EvAbort (Demo.xhr 0 None []) Demo.handle_call) = None)
  /\ resolves_to Demo.cfg 0
       (GError {| message := Some "XHR error"; data := Some (Value "text");
                  httpStatus := Some 0; grpcCode := Some (code UNKNOWN) |})
       (dispatch (imports := Demo.imports (Return []) (Return "m"))
          0 EvError (Demo.xhr 0 None []) Demo.one_call).
Proof.
  split; [| split].
  - pose proof (terminal_event_failure
                  (imports := Demo.imports (Return []) (Return "m"))
                  Demo.cfg Demo.one_call 0 Demo.call0 EvTimeout
                  (Demo.xhr 0 None [])
                  eq_refl
                  (fun H : EvTimeout = EvLoad =>
                     eq_ind EvTimeout
                       (fun e => match e with EvLoad => False | _ => True end)
                       I EvLoad H))
      as (Hlog & Hclear & Hres).
    split; [exact Hlog |]. split; [exact (Hclear eq_refl) |].
    exact (Hres eq_refl).
  - pose proof (terminal_event_failure
                  (imports := Demo.imports (Return []) (Return "m"))
                  Demo.cfg Demo.handle_call 0 Demo.call_h EvAbort
                  (Demo.xhr 0 None [])
                  eq_refl
                  (fun H : EvAbort = EvLoad =>
                     eq_ind EvAbort
                       (fun e => match e with EvLoad => False | _ => True end)
                       I EvLoad H))
      as (Hlog & Hclear & _).
    split; [exact Hlog | exact Hclear].
  - pose proof (terminal_event_failure
                  (imports := Demo.imports (Return []) (Return "m"))
                  Demo.cfg Demo.one_call 0 Demo.call0 EvError
                  (Demo.xhr 0 None [])
                  eq_refl
                  (fun H : EvError = EvLoad =>
                     eq_ind EvError
                       (fun e => match e with EvLoad => False | _ => True end)
                       I EvLoad H))
      as (_ & _ & Hres).
    exact (Hres eq_refl).
Defined.

Lemma load_no_bytes_witness :
  resolves_to Demo.cfg 0
    (GError {| message := Some "GRPC no bytes"; data := None;
               httpStatus := None; grpcCode := None |})
    (dispatch (imports := Demo.imports (Return []) (Return "m"))
       0 EvLoad (Demo.xhr 200 None []) Demo.one_call).
Proof.
  exact (proj1 (load_no_bytes
                  (imports := Demo.imports (Return []) (Return "m"))
                  Demo.cfg Demo.one_call 0 Demo.call0 (Demo.xhr 200 None [])
                  eq_refl eq_refl
                  (conj (Zle_bool_imp_le 200 200 eq_refl) eq_refl)
                  eq_refl)).
Defined.

Lemma rejections_are_caught_witness :
  returned Demo.throwing (Fulfilled (GSuccess "m")) =
  Fulfilled (GError {| message := None; data := Some (Value "hook failed");
                       httpStatus := None; grpcCode := None |}).
Proof.
  exact (proj1 (proj2 (proj2 (rejections_are_caught Demo.throwing
                                (Fulfilled (GSuccess "m")))))
           (GSuccess "m") (fun _ => Rejected "hook failed") "hook failed"
           eq_refl eq_refl eq_refl).
Defined.

Lemma CancelFn_twice_witness :
  log (CancelFn 0 (CancelFn 0 Demo.handle_call)) =
  [SlotSet 0 (Some (abortXHR 0)); XhrAbort 0; SlotSet 0 None; SlotSet 0 None].
Proof.
  destruct (CancelFn_twice Demo.handle_call 0)
    as (Hfirst & _ & Hsecond & _).
  rewrite Hsecond, Hfirst. reflexivity.
Defined.

(** ** Further properties of the listeners *)

Section Listeners.

Context {Any : Type} {imports : @Imports Any}.

Implicit Types (w : @World Any) (c : @Call Any) (o : @GOutput Any).

Lemma since_app w w' (l : list Action) :
  log w' = log w ++ l -> since w w' = l.
Proof. intros Hl. unfold since. rewrite Hl. apply drop_app_length. Qed.

Lemma cancels_callback client i o w :
  cancels client (callback i o w) = cancels client w.
Proof. reflexivity. Qed.

Lemma cancels_registry_delete_other client key client' key' w :
  client' <> client \/ key' <> key ->
  cancels client' (registry_delete client key w) !! key' =
  cancels client' w !! key'.
Proof.
  intros Hne. unfold cancels; simpl.
  destruct (decide (client' = client)) as [-> | Hc].
  - rewrite list_lookup_alter_eq.
    destruct (clients w !! client) as [reg |]; simpl; [| reflexivity].
    apply lookup_delete_ne. destruct Hne; congruence.
  - now rewrite list_lookup_alter_ne by congruence.
Qed.

Lemma slot_slot_set_other handle handle' f w :
  handle' <> handle -> slot handle' (slot_set handle f w) = slot handle' w.
Proof.
  intros Hne. unfold slot; simpl.
  now rewrite list_lookup_insert_ne by congruence.
Qed.

Lemma length_calls_dispatch i ev xhr w :
  length (calls (dispatch i ev xhr w)) = length (calls w).
Proof.
  unfold dispatch, listener.
  destruct (calls w !! i) as [c |]; [| reflexivity].
  destruct (outcome ev (call_field c) xhr); simpl;
    rewrite ?length_alter; now rewrite calls_tmCancel.
Qed.

(** X1: a [load] event with a 2xx status and bytes on which [chunkParse]
    throws resolves a pending call to the failure ['GRPC parsing error']
    that carries the thrown value and neither status nor code; the listener
    does the same whatever the response headers, [Decode] and the other
    helpers are. *)
Theorem load_parsing_error cfg w i c xhr byteSource error :
  calls w !! i = Some c ->
  call_promise c = Pending ->
  200 <= status xhr < 300 ->
  toInt8 xhr = Some byteSource ->
  chunkParse byteSource = Throw error ->
  resolves_to cfg i
    (GError {| message := Some "GRPC parsing error";
               data := Some (Value error);
               httpStatus := None; grpcCode := None |})
    (dispatch i EvLoad xhr w)
  /\ (forall I' : @Imports Any,
        @toInt8 _ I' xhr = Some byteSource ->
        @chunkParse _ I' byteSource = Throw error ->
        @dispatch _ I' i EvLoad xhr w = @dispatch _ imports i EvLoad xhr w).
Proof.
  intros Hc Hp Hs Hb Hparse.
  assert (forall I' : @Imports Any,
             @toInt8 _ I' xhr = Some byteSource ->
             @chunkParse _ I' byteSource = Throw error ->
             forall field,
               @onready _ I' field xhr =
               Some (GError {| message := Some "GRPC parsing error";
                               data := Some (Value error);
                               httpStatus := None; grpcCode := None |}))
    as Hany.
  { intros I' Hb' Hparse' field. unfold onready.
    destruct ((status xhr <? 200) || (status xhr >=? 300)) eqn:Ht.
    - apply wrong_status_test in Ht. lia.
    - now rewrite Hb', Hparse'. }
  split.
  - eapply dispatch_resolves; [eassumption .. |]. apply (Hany imports Hb Hparse).
  - intros I' Hb' Hparse'. apply dispatch_ext. intros c' _. simpl.
    now rewrite (Hany I' Hb' Hparse'), (Hany imports Hb Hparse).
Qed.

(** X2: a pending call resolves to a success only on a [load] event with a
    2xx status whose bytes parse to frames that start with a message that
    [Decode] returns a value for, and the success carries that value:
    [timeout], [abort] and [error], another status, no bytes, a parsing
    error, no frame, trailers first and a decode error all give a
    failure. *)
Theorem success_only_from_message w i c ev xhr v :
  calls w !! i = Some c ->
  call_promise c = Pending ->
  promise i (dispatch i ev xhr w) = Some (Fulfilled (GSuccess v)) ->
  ev = EvLoad
  /\ 200 <= status xhr < 300
  /\ exists byteSource payload rest,
       toInt8 xhr = Some byteSource
       /\ chunkParse byteSource = Return (MESSAGE payload :: rest)
       /\ Decode (decode (call_field c)) payload = Return v.
Proof.
  intros Hc Hp Hres.
  destruct (outcome_total ev (call_field c) xhr) as [o Ho].
  unfold promise in Hres.
  rewrite (dispatch_lookup _ _ _ _ _ _ Hc Ho) in Hres. simpl in Hres.
  rewrite Hp in Hres. simpl in Hres. injection Hres as ->.
  destruct ev; try discriminate Ho. split; [reflexivity |].
  simpl in Ho. unfold onready in Ho.
  destruct ((status xhr <? 200) || (status xhr >=? 300)) eqn:Ht;
    [discriminate Ho |].
  split.
  { destruct (Z.ltb_spec (status xhr) 200), (Z.geb_spec (status xhr) 300);
      simpl in Ht; try discriminate Ht; lia. }
  destruct (toInt8 xhr) as [byteSource |] eqn:Hb; [| discriminate Ho].
  destruct (chunkParse byteSource) as [[| [payload | trailers] rest] | e]
    eqn:Hparse; try discriminate Ho.
  simpl in Ho. unfold message_outcome in Ho.
  destruct (Decode (decode (call_field c)) payload) as [v' | e] eqn:Hd;
    [| discriminate Ho].
  injection Ho as ->. exists byteSource, payload, rest.
  split; [reflexivity |]. split; [exact Hparse | exact Hd].
Qed.

(** X3: the listener of a call touches only what is the call's: the entry of
    its own key in the registry of its own client, the slot of its own
    handle and its own promise.  Every other entry of every registry, every
    other slot and every other call are as they were, the call keeps its
    client, field and cancel option, and the listener never asks the
    transport to abort. *)
Theorem listener_isolation w i c ev xhr :
  calls w !! i = Some c ->
  let w' := dispatch i ev xhr w in
  (forall client key,
      call_client c <> client \/ call_cancel c <> Some (CancelKey key) ->
      cancels client w' !! key = cancels client w !! key)
  /\ (forall handle,
         call_cancel c <> Some (CancelHandle handle) ->
         slot handle w' = slot handle w)
  /\ (forall j, j <> i -> calls w' !! j = calls w !! j)
  /\ (exists c', calls w' !! i = Some c'
                 /\ call_client c' = call_client c
                 /\ call_field c' = call_field c
                 /\ call_cancel c' = call_cancel c)
  /\ length (clients w') = length (clients w)
  /\ Forall (fun a => ~ is_abort a) (since w w').
Proof.
  intros Hc w'.
  destruct (outcome_total ev (call_field c) xhr) as [o Ho].
  assert (w' = callback i o (tmCancel (call_client c) (call_cancel c) w))
    as Hw' by (unfold w', dispatch, listener; now rewrite Hc, Ho).
  split; [| split; [| split; [| split; [| split]]]].
  - intros client key Hne. rewrite Hw', cancels_callback.
    destruct (call_cancel c) as [[key0 | handle0] |]; simpl; try reflexivity.
    apply cancels_registry_delete_other.
    destruct Hne as [Hne | Hne]; [left; congruence | right; congruence].
  - intros handle Hne. rewrite Hw'.
    change (slot handle (callback i o ?x)) with (slot handle x).
    destruct (call_cancel c) as [[key0 | handle0] |]; simpl; try reflexivity.
    apply slot_slot_set_other. congruence.
  - intros j Hne. now apply dispatch_lookup_ne.
  - exists (settle o c). split; [| now split].
    apply (dispatch_lookup _ _ _ _ _ _ Hc Ho).
  - rewrite Hw'.
    destruct (call_cancel c) as [[key0 | handle0] |]; simpl;
      now rewrite ?length_alter.
  - rewrite (since_app w w' _ (dispatch_log _ _ _ _ _ _ Hc Ho)).
    apply Forall_app. split.
    + destruct (call_cancel c) as [[key0 | handle0] |]; simpl;
        repeat constructor; intros [].
    + repeat constructor. intros [].
Qed.

(** X9: once any terminal event of a call has been handled, the call can no
    longer be aborted through its handle or, when its key is an ordinary one,
    through its key: the next call on its client under its key only stores
    its own abort function, and calling its handle only sets the slot to
    undefined again. *)
Theorem finished_call_is_out_of_reach w i c ev xhr :
  calls w !! i = Some c ->
  let w' := dispatch i ev xhr w in
  (forall key field',
      call_cancel c = Some (CancelKey key) ->
      ordinary_key key = true ->
      since w' (snd (grpc (call_client c) field' (Some (CancelKey key)) w')) =
      [RegistrySet (call_client c) key (abortXHR (length (calls w)))])
  /\ (forall handle,
         call_cancel c = Some (CancelHandle handle) ->
         since w' (CancelFn handle w') = [SlotSet handle None]).
Proof.
  intros Hc w'.
  pose proof (dispatch_cleared i ev xhr w c Hc) as Hcl. fold w' in Hcl.
  split.
  - intros key field' Hk _. rewrite Hk in Hcl. simpl in Hcl.
    apply since_app. unfold grpc. rewrite Hcl. simpl.
    unfold w'. now rewrite length_calls_dispatch.
  - intros handle Hh. rewrite Hh in Hcl. simpl in Hcl.
    apply since_app. now rewrite (CancelFn_undefined _ _ Hcl).
Qed.

End Listeners.

(** ** Further properties of the registries and the handles *)

Section Registries.

Context {Any : Type} {imports : @Imports Any}.

Implicit Types (w : @World Any) (c : @Call Any) (o : @GOutput Any).

Lemma fst_grpc client field cancel w :
  fst (grpc client field cancel w) = length (calls w).
Proof.
  unfold grpc; simpl.
  destruct cancel as [[key | handle] |]; try reflexivity.
  destruct (cancels client w !! key) as [f |]; [| reflexivity].
  simpl. now rewrite calls_invoke.
Qed.

Lemma lookup_grpc_new client field cancel w :
  calls (snd (grpc client field cancel w)) !! length (calls w) =
  Some {| call_client := client; call_field := field;
          call_cancel := cancel; call_promise := Pending |}.
Proof.
  rewrite calls_grpc. now rewrite lookup_app_r, Nat.sub_diag by lia.
Qed.

(** The entries of a registry after a deletion were there before. *)
Lemma cancels_registry_delete_Some client key client' key' f w :
  cancels client' (registry_delete client key w) !! key' = Some f ->
  cancels client' w !! key' = Some f.
Proof.
  unfold cancels; simpl.
  destruct (decide (client' = client)) as [-> | Hc].
  - rewrite list_lookup_alter_eq.
    destruct (clients w !! client) as [reg |]; simpl; [| easy].
    intros Hf. apply lookup_delete_Some in Hf. tauto.
  - now rewrite list_lookup_alter_ne by congruence.
Qed.

(** The entries of a registry after an assignment are the new one and those
    that were there before. *)
Lemma cancels_registry_set_Some client key f client' key' g w :
  cancels client' (registry_set client key f w) !! key' = Some g ->
  (client' = client /\ key' = key /\ g = f) \/
  cancels client' w !! key' = Some g.
Proof.
  unfold cancels; simpl.
  destruct (decide (client' = client)) as [-> | Hc].
  - rewrite list_lookup_alter_eq.
    destruct (clients w !! client) as [reg |]; simpl; [| now right].
    intros Hg. apply lookup_insert_Some in Hg.
    destruct Hg as [[-> ->] | [_ Hg]]; [left | right]; auto.
  - rewrite list_lookup_alter_ne by congruence. now right.
Qed.

Lemma slot_slot_set_Some handle f handle' g w :
  slot handle' (slot_set handle f w) = Some g ->
  (handle' = handle /\ f = Some g) \/ slot handle' w = Some g.
Proof.
  unfold slot; simpl. intros Hg.
  destruct (decide (handle' = handle)) as [-> | Hne].
  - destruct (decide (handle < length (slots w))%nat) as [Hlt | Hge].
    + rewrite list_lookup_insert_eq in Hg by assumption. now left.
    + rewrite list_insert_ge in Hg by lia. now right.
  - rewrite list_lookup_insert_ne in Hg by congruence. now right.
Qed.

Lemma cancels_grpc_Some client field cancel client' key' i w :
  cancels client' (snd (grpc client field cancel w)) !! key' =
  Some (abortXHR i) ->
  (client' = client /\ cancel = Some (CancelKey key') /\ i = length (calls w))
  \/ cancels client' w !! key' = Some (abortXHR i).
Proof.
  unfold grpc.
  destruct cancel as [[key | handle] |]; try (now right).
  destruct (cancels client w !! key) as [f |] eqn:Hf.
  - intros Hg.
    change (cancels client'
              (registry_set client key
                 (abortXHR (length (calls (registry_delete client key
                                             (invoke f w)))))
                 (registry_delete client key (invoke f w))) !! key' =
            Some (abortXHR i)) in Hg.
    apply cancels_registry_set_Some in Hg.
    destruct Hg as [(-> & -> & Hi) | Hg].
    + left. injection Hi as ->. simpl. now rewrite calls_invoke.
    + right. apply cancels_registry_delete_Some in Hg.
      destruct f. exact Hg.
  - intros Hg.
    change (cancels client'
              (registry_set client key (abortXHR (length (calls w))) w)
            !! key' = Some (abortXHR i)) in Hg.
    apply cancels_registry_set_Some in Hg.
    destruct Hg as [(-> & -> & Hi) | Hg]; [left | now right].
    now injection Hi as ->.
Qed.

Lemma slot_grpc_Some client field cancel handle' i w :
  slot handle' (snd (grpc client field cancel w)) = Some (abortXHR i) ->
  (cancel = Some (CancelHandle handle') /\ i = length (calls w))
  \/ slot handle' w = Some (abortXHR i).
Proof.
  unfold grpc.
  destruct cancel as [[key | handle] |]; try (now right).
  - destruct (cancels client w !! key) as [[old] |]; now right.
  - intros Hg.
    change (slot handle'
              (slot_set handle (Some (abortXHR (length (calls w)))) w) =
            Some (abortXHR i)) in Hg.
    apply slot_slot_set_Some in Hg.
    destruct Hg as [[-> Hi] | Hg]; [left | now right].
    now injection Hi as ->.
Qed.

(** A step keeps the calls that were made, with their client and their
    cancel option. *)
Lemma step_keeps_calls s w j c :
  calls w !! j = Some c ->
  exists c', calls (step s w) !! j = Some c'
             /\ call_client c' = call_client c
             /\ call_cancel c' = call_cancel c.
Proof.
  intros Hj.
  destruct s as [cfg | client field cancel | i ev xhr | handle |].
  - exists c. now rewrite calls_grpcHTTP.
  - exists c. unfold step. rewrite calls_grpc.
    split; [now apply lookup_app_l_Some | auto].
  - unfold step. destruct (decide (i = j)) as [-> | Hne].
    + destruct (outcome_total ev (call_field c) xhr) as [o Ho].
      exists (settle o c). split; [| now split].
      apply (dispatch_lookup _ _ _ _ _ _ Hj Ho).
    + exists c. now rewrite dispatch_lookup_ne.
  - exists c. unfold step. now rewrite calls_CancelFn.
  - exists c. auto.
Qed.

Lemma step_registry s w client key i :
  cancels client (step s w) !! key = Some (abortXHR i) ->
  cancels client w !! key = Some (abortXHR i)
  \/ exists field,
       calls (step s w) !! i =
       Some {| call_client := client; call_field := field;
               call_cancel := Some (CancelKey key);
               call_promise := Pending |}.
Proof.
  destruct s as [cfg | client0 field cancel | j ev xhr | handle |].
  - simpl. unfold grpcHTTP. destruct (negb _); [now left |].
    unfold cancels; simpl. intros Hg. left.
    destruct (decide (client < length (clients w))%nat) as [Hlt | Hge].
    + now rewrite lookup_app_l in Hg by assumption.
    + rewrite lookup_app_r in Hg by lia.
      destruct (client - length (clients w))%nat as [| n]; simpl in Hg;
        now rewrite lookup_empty in Hg.
  - unfold step. intros Hg. apply cancels_grpc_Some in Hg.
    destruct Hg as [(-> & -> & ->) | Hg]; [right | now left].
    exists field. apply lookup_grpc_new.
  - unfold step, dispatch, listener. intros Hg. left.
    destruct (calls w !! j) as [c |]; [| exact Hg].
    assert (cancels client (tmCancel (call_client c) (call_cancel c) w)
            !! key = Some (abortXHR i)) as Hg'
      by (destruct (outcome ev (call_field c) xhr); exact Hg).
    destruct (call_cancel c) as [[key0 | handle0] |]; simpl in Hg';
      [now apply cancels_registry_delete_Some in Hg' | exact Hg' ..].
  - unfold step, CancelFn. intros Hg. left.
    destruct (slot handle w) as [[old] |]; exact Hg.
  - now left.
Qed.

Lemma step_slots s w handle i :
  slot handle (step s w) = Some (abortXHR i) ->
  slot handle w = Some (abortXHR i)
  \/ exists client field,
       calls (step s w) !! i =
       Some {| call_client := client; call_field := field;
               call_cancel := Some (CancelHandle handle);
               call_promise := Pending |}.
Proof.
  destruct s as [cfg | client0 field cancel | j ev xhr | handle0 |].
  - simpl. unfold grpcHTTP. destruct (negb _); now left.
  - unfold step. intros Hg. apply slot_grpc_Some in Hg.
    destruct Hg as [(-> & ->) | Hg]; [right | now left].
    exists client0, field. apply lookup_grpc_new.
  - unfold step, dispatch, listener. intros Hg. left.
    destruct (calls w !! j) as [c |]; [| exact Hg].
    assert (slot handle (tmCancel (call_client c) (call_cancel c) w) =
            Some (abortXHR i)) as Hg'
      by (destruct (outcome ev (call_field c) xhr); exact Hg).
    destruct (call_cancel c) as [[key0 | handle1] |]; simpl in Hg';
      try exact Hg'.
    apply slot_slot_set_Some in Hg'. destruct Hg' as [[_ ?] | ?]; easy.
  - unfold step, CancelFn. intros Hg. left.
    apply slot_slot_set_Some in Hg. destruct Hg as [[_ ?] | Hg]; [easy |].
    destruct (slot handle0 w) as [[old] |]; exact Hg.
  - unfold step, grpcCancel, slot; simpl. intros Hg. left.
    destruct (decide (handle < length (slots w))%nat) as [Hlt | Hge].
    + now rewrite lookup_app_l in Hg by assumption.
    + rewrite lookup_app_r in Hg by lia.
      destruct (handle - length (slots w))%nat as [| n]; simpl in Hg;
        discriminate Hg.
Qed.

Lemma step_owned s w : owned w -> owned (step s w).
Proof.
  intros [Hreg Hslot]. split.
  - intros client key i Hg.
    destruct (step_registry s w client key i Hg) as [Hold | [field Hnew]].
    + destruct (Hreg client key i Hold) as (c & Hc & Hcl & Hca).
      destruct (step_keeps_calls s w i c Hc) as (c' & Hc' & Hcl' & Hca').
      exists c'. split; [exact Hc' |]. split; congruence.
    + eexists. split; [exact Hnew |]. now split.
  - intros handle i Hg.
    destruct (step_slots s w handle i Hg) as [Hold | (client & field & Hnew)].
    + destruct (Hslot handle i Hold) as (c & Hc & Hca).
      destruct (step_keeps_calls s w i c Hc) as (c' & Hc' & _ & Hca').
      exists c'. split; [exact Hc' | congruence].
    + eexists. split; [exact Hnew | reflexivity].
Qed.

(** X4: whatever a process goes through, an abort function held under a key
    in the registry of a client is the one of a call made on that client
    under that key, and an abort function held in the slot of a handle is
    the one of a call made with that handle: a key or a handle never aborts
    a call made under another key, on another client or with another
    handle. *)
Theorem owned_forever ss w : owned w -> owned (run ss w).
Proof.
  revert w. induction ss as [| s ss IH]; intros w Hw; simpl; [exact Hw |].
  apply IH. now apply step_owned.
Qed.

Lemma log_grpc_handle client field handle w :
  log (snd (grpc client field (Some (CancelHandle handle)) w)) =
  log w ++ [SlotSet handle (Some (abortXHR (length (calls w))))].
Proof. reflexivity. Qed.

Lemma slot_grpc_handle client field handle w :
  (handle < length (slots w))%nat ->
  slot handle (snd (grpc client field (Some (CancelHandle handle)) w)) =
  Some (abortXHR (length (calls w))).
Proof.
  intros Hlt. unfold slot, grpc; simpl.
  now rewrite list_lookup_insert_eq.
Qed.

Lemma slots_grpc_handle client field handle w :
  length (slots (snd (grpc client field (Some (CancelHandle handle)) w))) =
  length (slots w).
Proof. unfold grpc; simpl. apply length_insert. Qed.

Lemma log_CancelFn_held handle xhr w :
  slot handle w = Some (abortXHR xhr) ->
  log (CancelFn handle w) = log w ++ [XhrAbort xhr; SlotSet handle None].
Proof.
  intros Hs. unfold CancelFn. rewrite Hs. simpl. now rewrite <- app_assoc.
Qed.

(** X5: a handle is not a key: a second call made with a handle that still
    holds the abort function of a first call does not abort the first call,
    it overwrites the slot; the first call stays pending, and calling the
    handle from then on aborts the second call only. *)
Theorem handle_reuse_drops_first_call w client handle field1 field2 :
  (handle < length (slots w))%nat ->
  let r1 := grpc client field1 (Some (CancelHandle handle)) w in
  let r2 := grpc client field2 (Some (CancelHandle handle)) (snd r1) in
  slot handle (snd r1) = Some (abortXHR (fst r1))
  /\ fst r2 = S (fst r1)
  /\ since (snd r1) (snd r2) = [SlotSet handle (Some (abortXHR (fst r2)))]
  /\ promise (fst r1) (snd r2) = Some Pending
  /\ slot handle (snd r2) = Some (abortXHR (fst r2))
  /\ since (snd r2) (CancelFn handle (snd r2)) =
     [XhrAbort (fst r2); SlotSet handle None].
Proof.
  intros Hlt r1 r2.
  assert (fst r1 = length (calls w)) as H1 by apply fst_grpc.
  assert (fst r2 = length (calls (snd r1))) as H2 by apply fst_grpc.
  assert (slot handle (snd r2) = Some (abortXHR (fst r2))) as Hs2.
  { rewrite H2. apply slot_grpc_handle.
    unfold r1. now rewrite slots_grpc_handle. }
  split; [rewrite H1; now apply slot_grpc_handle |].
  split.
  { rewrite H2, H1. unfold r1.
    now rewrite calls_grpc, length_app, Nat.add_1_r. }
  split.
  { apply since_app. rewrite H2. apply log_grpc_handle. }
  split.
  { unfold promise. rewrite H1. unfold r2. rewrite calls_grpc. unfold r1.
    erewrite lookup_app_l_Some by apply lookup_grpc_new. reflexivity. }
  split; [exact Hs2 |].
  apply since_app. now apply log_CancelFn_held.
Qed.

(** X6: cancelling through a handle, from end to end: a call made with a
    fresh handle stores its abort function in the slot; calling the handle
    asks the transport to abort that call, and no other, and empties the
    slot; with the [abort] event of the transport the call resolves to the
    failure ['cancelled'] with [grpcCode] [CANCELLED], and the slot is
    empty. *)
Theorem cancel_through_handle cfg w client field xhr :
  let h := grpcCancel w in
  let r := grpc client field (Some (CancelHandle (fst h))) (snd h) in
  let w3 := CancelFn (fst h) (snd r) in
  let w4 := dispatch (fst r) EvAbort xhr w3 in
  let cancelled :=
    GError {| message := Some "cancelled"; data := None;
              httpStatus := Some (status xhr);
              grpcCode := Some (code CANCELLED) |} in
  since w w3 =
  [SlotSet (fst h) (Some (abortXHR (fst r))); XhrAbort (fst r);
   SlotSet (fst h) None]
  /\ resolves_to cfg (fst r) cancelled w4
  /\ slot (fst h) w4 = None.
Proof.
  intros h r w3 w4 cancelled.
  assert (fst r = length (calls w)) as Hr
    by exact (fst_grpc client field _ (snd h)).
  assert (slot (fst h) (snd r) = Some (abortXHR (fst r))) as Hslot.
  { rewrite Hr. apply (slot_grpc_handle client field (fst h) (snd h)).
    simpl. rewrite length_app. simpl. lia. }
  set (c := {| call_client := client; call_field := field;
               call_cancel := Some (CancelHandle (fst h));
               call_promise := Pending |}).
  assert (calls w3 !! fst r = Some c) as Hc.
  { unfold w3. rewrite calls_CancelFn, Hr.
    apply (lookup_grpc_new client field _ (snd h)). }
  split.
  { apply since_app. unfold w3. rewrite (log_CancelFn_held _ _ _ Hslot).
    unfold r at 1. rewrite log_grpc_handle, <- app_assoc. simpl.
    now rewrite <- Hr. }
  split; [now apply (dispatch_resolves cfg _ EvAbort xhr w3 c) |].
  apply (dispatch_cleared _ EvAbort xhr w3 c Hc).
Qed.

Lemma length_clients_grpc client field cancel w :
  length (clients (snd (grpc client field cancel w))) = length (clients w).
Proof.
  unfold grpc.
  destruct cancel as [[key | handle] |]; try reflexivity.
  destruct (cancels client w !! key) as [[old] |]; simpl;
    now rewrite ?length_alter.
Qed.

Lemma cancels_grpc_key client field key w :
  (client < length (clients w))%nat ->
  cancels client (snd (grpc client field (Some (CancelKey key)) w)) !! key =
  Some (abortXHR (length (calls w))).
Proof.
  intros Hlt.
  destruct (cancels client w !! key) as [[old] |] eqn:Hold.
  - destruct (grpc_reuse w client key old field Hold) as (Hfst & _ & Hnew & _).
    rewrite Hnew, lookup_insert_eq. now rewrite Hfst.
  - destruct (lookup_lt_is_Some_2 _ _ Hlt) as [reg Hreg].
    unfold grpc. rewrite Hold. unfold cancels; simpl.
    rewrite list_lookup_alter_eq, Hreg. simpl. apply lookup_insert_eq.
Qed.

(** X7: the listeners clear the key of their call without looking at what
    the entry holds.  Under an ordinary key, when a second call has taken
    the key of a first call and an event of the first call is handled after
    that, the entry of the second call is deleted: the second call is still
    pending, and a third call under the key stores its own abort function
    and aborts nothing. *)
Theorem late_event_unregisters_newer_call
  w client key field1 field2 field3 ev xhr :
  (client < length (clients w))%nat ->
  ordinary_key key = true ->
  let r1 := grpc client field1 (Some (CancelKey key)) w in
  let r2 := grpc client field2 (Some (CancelKey key)) (snd r1) in
  let w3 := dispatch (fst r1) ev xhr (snd r2) in
  let r4 := grpc client field3 (Some (CancelKey key)) w3 in
  cancels client (snd r2) !! key = Some (abortXHR (fst r2))
  /\ promise (fst r2) w3 = Some Pending
  /\ cancels client w3 !! key = None
  /\ since w3 (snd r4) = [RegistrySet client key (abortXHR (fst r4))].
Proof.
  intros Hlt _ r1 r2 w3 r4.
  assert (fst r1 = length (calls w)) as H1 by apply fst_grpc.
  assert (fst r2 = length (calls (snd r1))) as H2 by apply fst_grpc.
  assert (fst r2 = S (fst r1)) as H21.
  { rewrite H2, H1. unfold r1.
    now rewrite calls_grpc, length_app, Nat.add_1_r. }
  set (c1 := {| call_client := client; call_field := field1;
                call_cancel := Some (CancelKey key);
                call_promise := Pending |}).
  assert (calls (snd r2) !! fst r1 = Some c1) as Hc1.
  { unfold r2. rewrite calls_grpc, H1. apply lookup_app_l_Some.
    apply lookup_grpc_new. }
  assert (cancels client w3 !! key = None) as Hnone
    by apply (dispatch_cleared _ ev xhr (snd r2) c1 Hc1).
  split.
  { rewrite H2. apply cancels_grpc_key.
    unfold r1. now rewrite length_clients_grpc. }
  split.
  { unfold promise, w3. rewrite dispatch_lookup_ne by lia.
    rewrite H2. unfold r2. now rewrite lookup_grpc_new. }
  split; [exact Hnone |].
  assert (fst r4 = length (calls w3)) as H4 by apply fst_grpc.
  apply since_app. rewrite H4. unfold r4, grpc. now rewrite Hnone.
Qed.

(** X8: a client that [grpcHTTP] returns starts with a registry in which no
    ordinary key reads as anything, and making it changes no other registry,
    no slot and no call; so the first call on it under an ordinary key
    aborts nothing, whatever the other clients hold under that key, and
    stores its abort function under the key. *)
Theorem fresh_client_aborts_nothing cfg w client w' :
  grpcHTTP cfg w = Some (client, w') ->
  (forall key, ordinary_key key = true -> cancels client w' !! key = None)
  /\ (forall other, other <> client -> cancels other w' = cancels other w)
  /\ slots w' = slots w
  /\ calls w' = calls w
  /\ (forall field key,
        ordinary_key key = true ->
        since w' (snd (grpc client field (Some (CancelKey key)) w')) =
        [RegistrySet client key (abortXHR (length (calls w)))]
        /\ cancels client (snd (grpc client field (Some (CancelKey key)) w'))
           !! key = Some (abortXHR (length (calls w)))).
Proof.
  unfold grpcHTTP. destruct (negb _); [discriminate |].
  intros Hnew. injection Hnew as <- <-.
  assert (cancels (length (clients w))
            {| clients := clients w ++ [∅]; slots := slots w;
               calls := calls w; log := log w |} = ∅) as Hempty.
  { unfold cancels; simpl.
    now rewrite lookup_app_r, Nat.sub_diag by lia. }
  split; [intros key _; rewrite Hempty; apply lookup_empty |]. split.
  { intros other Hne. unfold cancels; simpl.
    destruct (decide (other < length (clients w))%nat) as [Hlt | Hge].
    - now rewrite lookup_app_l by assumption.
    - rewrite lookup_app_r by lia.
      rewrite (lookup_ge_None_2 (clients w)) by lia.
      destruct (other - length (clients w))%nat as [| n] eqn:Hn; [lia |].
      reflexivity. }
  split; [reflexivity |]. split; [reflexivity |].
  intros field key _. split.
  - apply since_app. unfold grpc. rewrite Hempty, lookup_empty. reflexivity.
  - apply (cancels_grpc_key (length (clients w)) field key
             {| clients := clients w ++ [∅]; slots := slots w;
                calls := calls w; log := log w |}).
    simpl. rewrite length_app. simpl. lia.
Qed.

End Registries.

(** ** Properties of the request side *)

Section Requests.

Context {Any : Type} {request_imports : @RequestImports Any}.

Implicit Types (cfg : @ConfigGRPC Any) (rcfg : @RequestConfig Any).
Implicit Types (field : @Field Any) (opts : @RequestOptions Any).
Implicit Types (values : Any).

Lemma setup_no_send cfg rcfg support field opts body :
  ~ In (Send body) (setup cfg rcfg support field opts).
Proof.
  unfold setup.
  destruct (has_overrideMimeType support), (isPresent (onDownload opts)),
    (isPresent (onUpload opts) && has_upload support);
    simpl; intuition discriminate.
Qed.

Lemma setup_has cfg rcfg support field opts (x : XhrCall) :
  In x [SetRequestHeader "content-type" "application/grpc-web+proto";
        SetRequestHeader "x-grpc-web" "1";
        SetRequestHeader "x-user-agent" "grpc-web-ts/1.0";
        AddEventListener OnXhr "timeout"; AddEventListener OnXhr "abort";
        AddEventListener OnXhr "error"; AddEventListener OnXhr "load"] ->
  In x (setup cfg rcfg support field opts).
Proof.
  unfold setup. intros Hx.
  destruct (has_overrideMimeType support), (isPresent (onDownload opts)),
    (isPresent (onUpload opts) && has_upload support);
    simpl in *; intuition.
Qed.

(** X10: a call opens its [xhr] with [POST] on [server/name] right after it
    has set the timeout, sets the three gRPC-Web headers and registers the
    four terminal listeners, and only then, as its last act, sends, once,
    the framed encoding of the masked data.  When [transformRequest] throws,
    and when [Encode] throws on the data, everything but the send has been
    done, nothing is sent and the executor ends with what was thrown. *)
Theorem request_sends_last cfg rcfg support field values opts :
  let r := request cfg rcfg support field values opts in
  (* the data: the truthy result of the hook, else the values *)
  let is_data d :=
    match transformRequest rcfg with
    | None => d = values
    | Some f =>
        f values = Return (Some d) \/ (f values = Return None /\ d = values)
    end in
  exists before,
    (forall body, ~ In (Send body) before)
    /\ (exists rest,
          before =
          SetTimeout match timeoutLocal opts, timeoutConfig rcfg with
                     | Some t, _ => t
                     | None, Some t => t
                     | None, None => 0
                     end
          :: Open "POST" (server cfg ++ "/" ++ name field) :: rest)
    /\ (forall x,
          In x [SetRequestHeader "content-type" "application/grpc-web+proto";
                SetRequestHeader "x-grpc-web" "1";
                SetRequestHeader "x-user-agent" "grpc-web-ts/1.0";
                AddEventListener OnXhr "timeout";
                AddEventListener OnXhr "abort";
                AddEventListener OnXhr "error";
                AddEventListener OnXhr "load"] ->
          In x before)
    /\ (forall f e,
          transformRequest rcfg = Some f ->
          f values = Throw e ->
          r = (before, Some e))
    /\ (forall d e,
          is_data d ->
          Encode (encode field) (masked (mask opts) d) = Throw e ->
          r = (before, Some e))
    /\ (forall d encoded,
          is_data d ->
          Encode (encode field) (masked (mask opts) d) = Return encoded ->
          r = (before ++ [Send (encodeRequest encoded)], None)).
Proof.
  intros r is_data. exists (setup cfg rcfg support field opts).
  split; [intros body; apply setup_no_send |].
  split.
  { unfold setup. eexists.
    destruct (timeoutLocal opts), (timeoutConfig rcfg); reflexivity. }
  split; [intros x; apply setup_has |].
  assert (forall d, is_data d -> sendData rcfg values = Return d) as Hdata.
  { intros d Hd. unfold is_data in Hd. unfold sendData.
    destruct (transformRequest rcfg) as [f |]; [| now subst].
    destruct Hd as [-> | [-> ->]]; reflexivity. }
  split; [| split].
  - intros f e Hf Hv. subst r. unfold request, sendData. now rewrite Hf, Hv.
  - intros d e Hd He. subst r. unfold request.
    now rewrite (Hdata d Hd), He.
  - intros d encoded Hd He. subst r. unfold request.
    now rewrite (Hdata d Hd), He.
Qed.

Lemma setup_sets cfg rcfg support field opts :
  In (SetWithCredentials (nullish (credentials rcfg) true))
     (setup cfg rcfg support field opts)
  /\ (forall b, In (SetWithCredentials b) (setup cfg rcfg support field opts) ->
                b = nullish (credentials rcfg) true)
  /\ (forall t, In (SetTimeout t) (setup cfg rcfg support field opts) ->
                t = nullish (timeoutLocal opts) (nullish (timeoutConfig rcfg) 0)).
Proof.
  unfold setup.
  destruct (has_overrideMimeType support), (isPresent (onDownload opts)),
    (isPresent (onUpload opts) && has_upload support);
    simpl; intuition congruence.
Qed.

Lemma In_request cfg rcfg support field values opts (x : XhrCall) :
  (forall body, x <> Send body) ->
  In x (fst (request cfg rcfg support field values opts)) <->
  In x (setup cfg rcfg support field opts).
Proof.
  intros Hx. unfold request.
  destruct (sendData rcfg values) as [d | e]; [| reflexivity].
  destruct (Encode _ _) as [encoded | e]; [| reflexivity].
  cbn [fst]. rewrite in_app_iff. split; [| tauto].
  intros [H | [H | []]]; [exact H |]. now destruct (Hx _ (eq_sym H)).
Qed.

(** X11: the fallbacks of the request: a [transformRequest] whose result is
    falsy leaves the request as it is without [transformRequest]; a mask
    object whose [field] is not a text leaves it as it is without a mask;
    the timeout given to the call, 0 as well, is set on the [xhr], first of
    all and whatever the configuration says, and no other timeout is set;
    [withCredentials] is set, to true when the configuration has no
    [credentials] and to what it says otherwise, and to nothing else. *)
Theorem request_fallbacks cfg rcfg support field values opts :
  let calls_ := fst (request cfg rcfg support field values opts) in
  (forall f,
      transformRequest rcfg = Some f ->
      f values = Return None ->
      request cfg rcfg support field values opts =
      request cfg
        {| credentials := credentials rcfg;
           timeoutConfig := timeoutConfig rcfg;
           transformRequest := None |}
        support field values opts)
  /\ (forall (name_ : string) outField,
         mask opts = Some (MaskField name_ outField) ->
         isText name_ = false ->
         request cfg rcfg support field values opts =
         request cfg rcfg support field values
           {| onDownload := onDownload opts; onUpload := onUpload opts;
              mask := None; timeoutLocal := timeoutLocal opts |})
  /\ (forall t,
         timeoutLocal opts = Some t ->
         (exists rest, calls_ = SetTimeout t :: rest)
         /\ (forall t', In (SetTimeout t') calls_ -> t' = t))
  /\ (credentials rcfg = None ->
      In (SetWithCredentials true) calls_
      /\ (forall b, In (SetWithCredentials b) calls_ -> b = true))
  /\ (forall b,
         credentials rcfg = Some b ->
         In (SetWithCredentials b) calls_
         /\ (forall b', In (SetWithCredentials b') calls_ -> b' = b)).
Proof.
  intros calls_.
  destruct (setup_sets cfg rcfg support field opts) as (Hcred & Honly & Htime).
  assert (forall b, In (SetWithCredentials b) calls_ <->
                    In (SetWithCredentials b)
                       (setup cfg rcfg support field opts)) as Hb
    by (intros b; apply In_request; discriminate).
  assert (forall t, In (SetTimeout t) calls_ <->
                    In (SetTimeout t) (setup cfg rcfg support field opts))
    as Ht by (intros t; apply In_request; discriminate).
  split; [| split; [| split; [| split]]].
  - intros f Hf Hv. unfold request, sendData. rewrite Hf, Hv. reflexivity.
  - intros name_ outField Hm Htext. unfold request, masked.
    rewrite Hm, Htext. reflexivity.
  - intros t Hlocal. split.
    + unfold calls_, request, setup. rewrite Hlocal. simpl.
      destruct (sendData rcfg values) as [d | e];
        [destruct (Encode _ _) as [encoded | e] |]; simpl; eauto.
    + intros t' Hin. apply Ht, Htime in Hin. now rewrite Hlocal in Hin.
  - intros Hnone. rewrite Hnone in Hcred, Honly. simpl in Hcred, Honly.
    split; [now apply Hb | intros b Hin; now apply Honly, Hb].
  - intros b Hsome. rewrite Hsome in Hcred, Honly. simpl in Hcred, Honly.
    split; [now apply Hb | intros b' Hin; now apply Honly, Hb].
Qed.

End Requests.

(** ** The further statements at work *)

Lemma load_parsing_error_witness :
  resolves_to Demo.cfg 0
    (GError {| message := Some "GRPC parsing error";
               data := Some (Value "truncated frame");
               httpStatus := None; grpcCode := None |})
    (dispatch (imports := Demo.imports (Throw "truncated frame") (Return "m"))
       0 EvLoad (Demo.xhr 200 (Some Demo.body) []) Demo.one_call).
Proof.
  exact (proj1 (load_parsing_error
                  (imports := Demo.imports (Throw "truncated frame")
                                (Return "m"))
                  Demo.cfg Demo.one_call 0 Demo.call0
                  (Demo.xhr 200 (Some Demo.body) []) Demo.body
                  "truncated frame"
                  eq_refl eq_refl
                  (conj (Zle_bool_imp_le 200 200 eq_refl) eq_refl)
                  eq_refl eq_refl)).
Defined.

Lemma success_only_from_message_witness :
  EvLoad = EvLoad
  /\ 200 <= 200 < 300
  /\ exists byteSource payload rest,
       Some Demo.body = Some byteSource
       /\ Return (Any := string) [MESSAGE Demo.body; TRAILERS Demo.bad_arg] =
          Return (MESSAGE payload :: rest)
       /\ Return (Any := string) "m"%string = Return "m"%string.
Proof.
  exact (success_only_from_message
           (imports := Demo.imports
                         (Return [MESSAGE Demo.body; TRAILERS Demo.bad_arg])
                         (Return "m"))
           Demo.one_call 0 Demo.call0 EvLoad
           (Demo.xhr 200 (Some Demo.body) []) "m"
           eq_refl eq_refl eq_refl).
Defined.

Lemma listener_isolation_witness :
  Forall (fun a => ~ is_abort a)
    (since Demo.one_call
       (dispatch (imports := Demo.imports (Return []) (Return "m"))
          0 EvError (Demo.xhr 0 None []) Demo.one_call))
  /\ length (clients
       (dispatch (imports := Demo.imports (Return []) (Return "m"))
          0 EvError (Demo.xhr 0 None []) Demo.one_call)) = 2%nat.
Proof.
  pose proof (listener_isolation
                (imports := Demo.imports (Return []) (Return "m"))
                Demo.one_call 0 Demo.call0 EvError (Demo.xhr 0 None [])
                eq_refl)
    as (_ & _ & _ & _ & Hlen & Hlog).
  split; [exact Hlog | exact Hlen].
Defined.

Lemma finished_call_is_out_of_reach_witness :
  since
    (dispatch (imports := Demo.imports (Return []) (Return "m"))
       0 EvLoad (Demo.xhr 200 None []) Demo.one_call)
    (snd (grpc 0 Demo.field (Some (CancelKey "k"))
            (dispatch (imports := Demo.imports (Return []) (Return "m"))
               0 EvLoad (Demo.xhr 200 None []) Demo.one_call))) =
  [RegistrySet 0 "k" (abortXHR 1)].
Proof.
  exact (proj1 (finished_call_is_out_of_reach
                  (imports := Demo.imports (Return []) (Return "m"))
                  Demo.one_call 0 Demo.call0 EvLoad (Demo.xhr 200 None [])
                  eq_refl)
           "k"%string Demo.field eq_refl eq_refl).
Defined.

Lemma owned_forever_witness :
  owned
    (run (imports := Demo.imports (Return []) (Return "m"))
       [DoCall 0 Demo.field (Some (CancelKey "k"));
        DoGrpcCancel;
        DoCall 1 Demo.field (Some (CancelHandle 0));
        DoEvent 0 EvLoad (Demo.xhr 200 None []);
        DoCall 0 Demo.field (Some (CancelKey "k"));
        DoCancelFn 0]
       Demo.start).
Proof.
  apply owned_forever. split.
  - intros client key i Hheld. exfalso. unfold cancels in Hheld.
    destruct client as [| [| n]]; simpl in Hheld;
      rewrite lookup_empty in Hheld; discriminate Hheld.
  - intros handle i Hheld. exfalso. unfold slot in Hheld.
    destruct handle; discriminate Hheld.
Defined.

Lemma handle_reuse_drops_first_call_witness :
  since
    (snd (grpc 0 Demo.field (Some (CancelHandle 0))
            (snd (grpcCancel Demo.start))))
    (snd (grpc 0 Demo.field (Some (CancelHandle 0))
            (snd (grpc 0 Demo.field (Some (CancelHandle 0))
                    (snd (grpcCancel Demo.start)))))) =
  [SlotSet 0 (Some (abortXHR 1))]
  /\ since
       (snd (grpc 0 Demo.field (Some (CancelHandle 0))
               (snd (grpc 0 Demo.field (Some (CancelHandle 0))
                       (snd (grpcCancel Demo.start))))))
       (CancelFn 0
          (snd (grpc 0 Demo.field (Some (CancelHandle 0))
                  (snd (grpc 0 Demo.field (Some (CancelHandle 0))
                          (snd (grpcCancel Demo.start))))))) =
     [XhrAbort 1; SlotSet 0 None].
Proof.
  pose proof (handle_reuse_drops_first_call
                (snd (grpcCancel Demo.start)) 0 0 Demo.field Demo.field
                (le_n 1))
    as (_ & _ & Hsecond & _ & _ & Hcancel).
  split; [exact Hsecond | exact Hcancel].
Defined.

Lemma late_event_unregisters_newer_call_witness :
  cancels 0
    (dispatch (imports := Demo.imports (Return []) (Return "m"))
       0 EvLoad (Demo.xhr 200 None [])
       (snd (grpc 0 Demo.field (Some (CancelKey "k")) Demo.one_call)))
    !! "k" = None
  /\ promise 1
       (dispatch (imports := Demo.imports (Return []) (Return "m"))
          0 EvLoad (Demo.xhr 200 None [])
          (snd (grpc 0 Demo.field (Some (CancelKey "k")) Demo.one_call))) =
     Some Pending.
Proof.
  pose proof (late_event_unregisters_newer_call
                (imports := Demo.imports (Return []) (Return "m"))
                Demo.start 0 "k" Demo.field Demo.field Demo.field
                EvLoad (Demo.xhr 200 None [])
                (le_S 1 1 (le_n 1)) eq_refl)
    as (_ & Hpending & Hnone & _).
  split; [exact Hnone | exact Hpending].
Defined.

Lemma fresh_client_aborts_nothing_witness :
  since
    {| clients := clients Demo.one_call ++ [∅]; slots := slots Demo.one_call;
       calls := calls Demo.one_call; log := log Demo.one_call |}
    (snd (grpc 2 Demo.field (Some (CancelKey "k"))
            {| clients := clients Demo.one_call ++ [∅];
               slots := slots Demo.one_call;
               calls := calls Demo.one_call; log := log Demo.one_call |})) =
  [RegistrySet 2 "k" (abortXHR 1)].
Proof.
  pose proof (fresh_client_aborts_nothing Demo.cfg Demo.one_call 2
                {| clients := clients Demo.one_call ++ [∅];
                   slots := slots Demo.one_call;
                   calls := calls Demo.one_call; log := log Demo.one_call |}
                eq_refl)
    as (_ & _ & _ & _ & Hfirst).
  exact (proj1 (Hfirst Demo.field "k"%string eq_refl)).
Defined.

Lemma request_fallbacks_witness :
  request (request_imports := DemoRequest.imports)
    Demo.cfg DemoRequest.silent DemoRequest.support Demo.field "v"
    DemoRequest.opts =
  request (request_imports := DemoRequest.imports)
    Demo.cfg DemoRequest.plain DemoRequest.support Demo.field "v"
    DemoRequest.opts
  /\ request (request_imports := DemoRequest.imports)
       Demo.cfg DemoRequest.plain DemoRequest.support Demo.field "v"
       DemoRequest.blank_mask =
     request (request_imports := DemoRequest.imports)
       Demo.cfg DemoRequest.plain DemoRequest.support Demo.field "v"
       DemoRequest.opts
  /\ (exists rest,
        fst (request (request_imports := DemoRequest.imports)
               Demo.cfg DemoRequest.plain DemoRequest.support Demo.field "v"
               DemoRequest.opts) = SetTimeout 0 :: rest)
  /\ In (SetWithCredentials true)
        (fst (request (request_imports := DemoRequest.imports)
                Demo.cfg DemoRequest.plain DemoRequest.support Demo.field "v"
                DemoRequest.opts)).
Proof.
  split; [| split; [| split]].
  3: exact (proj1 (proj1 (proj2 (proj2 (request_fallbacks
                     (request_imports := DemoRequest.imports)
                     Demo.cfg DemoRequest.plain DemoRequest.support
                     Demo.field "v" DemoRequest.opts))) 0 eq_refl)).
  3: exact (proj1 (proj1 (proj2 (proj2 (proj2 (request_fallbacks
                     (request_imports := DemoRequest.imports)
                     Demo.cfg DemoRequest.plain DemoRequest.support
                     Demo.field "v" DemoRequest.opts)))) eq_refl)).
  - exact (proj1 (request_fallbacks (request_imports := DemoRequest.imports)
                    Demo.cfg DemoRequest.silent DemoRequest.support
                    Demo.field "v" DemoRequest.opts)
             (fun _ => Return None) eq_refl eq_refl).
  - exact (proj1 (proj2 (request_fallbacks
                           (request_imports := DemoRequest.imports)
                           Demo.cfg DemoRequest.plain DemoRequest.support
                           Demo.field "v" DemoRequest.blank_mask))
             ""%string (Some "out"%string) eq_refl eq_refl).
Defined.

Lemma request_sends_last_witness :
  (exists before,
     request (request_imports := DemoRequest.imports)
       Demo.cfg DemoRequest.failing DemoRequest.support Demo.field "v"
       DemoRequest.opts = (before, Some "no token"%string)
     /\ In (AddEventListener OnXhr "load") before)
  /\ (exists before,
        request (request_imports := DemoRequest.imports)
          Demo.cfg DemoRequest.plain DemoRequest.support Demo.field "v"
          DemoRequest.opts =
        (before ++ [Send (Byte.x00 :: list_byte_of_string "v")], None)
        /\ hd_error before = Some (SetTimeout 0)).
Proof.
  split.
  - destruct (request_sends_last (request_imports := DemoRequest.imports)
                Demo.cfg DemoRequest.failing DemoRequest.support Demo.field
                "v" DemoRequest.opts)
      as (before & _ & _ & Hin & Hthrow & _).
    exists before. split.
    + exact (Hthrow (fun _ => Throw "no token"%string) "no token"%string
               eq_refl eq_refl).
    + apply Hin. simpl. tauto.
  - destruct (request_sends_last (request_imports := DemoRequest.imports)
                Demo.cfg DemoRequest.plain DemoRequest.support Demo.field
                "v" DemoRequest.opts)
      as (before & _ & (rest & Hhd) & _ & _ & _ & Hsend).
    exists before. split.
    + exact (Hsend "v"%string (list_byte_of_string "v") eq_refl eq_refl).
    + rewrite Hhd. reflexivity.
Defined.

Lemma cancel_through_handle_witness :
  since Demo.start
    (CancelFn 0
       (snd (grpc 0 Demo.field (Some (CancelHandle 0))
               (snd (grpcCancel Demo.start))))) =
  [SlotSet 0 (Some (abortXHR 0)); XhrAbort 0; SlotSet 0 None]
  /\ resolves_to Demo.cfg 0
       (GError {| message := Some "cancelled"; data := None;
                  httpStatus := Some 0; grpcCode := Some (code CANCELLED) |})
       (dispatch (imports := Demo.imports (Return []) (Return "m"))
          0 EvAbort (Demo.xhr 0 None [])
          (CancelFn 0
             (snd (grpc 0 Demo.field (Some (CancelHandle 0))
                     (snd (grpcCancel Demo.start)))))).
Proof.
  pose proof (cancel_through_handle
                (imports := Demo.imports (Return []) (Return "m"))
                Demo.cfg Demo.start 0 Demo.field (Demo.xhr 0 None []))
    as (Hlog & Hres & _).
  split; [exact Hlog | exact Hres].
Defined.
